(** * The freelan core (src/core2.cpp): a shallow embedding

    The control plane of a freelan node: the fan-in [results_gatherer], the
    ban filter, the handlers the core registers with the FSCP server, the two
    periodic contact loops and certificate validation.

    Conventions of the embedding:
    - a C++ call that can stop the program ([assert], dereferencing a null
      pointer or an end iterator) yields [Failed]; everything else [Ok];
      [assert] is the checking one (NDEBUG is not defined);
    - [std::set] and [std::map] are stdpp's [gset] and [gmap];
    - what the core asks of its collaborators (the FSCP server, the resolver,
      the logger, the callbacks it is given) is recorded, in order, in a
      trace of [event]s. *)

From Stdlib Require Import ZArith String.
From stdpp Require Import base gmap sets list strings.

Local Open Scope Z_scope.

Set Warnings "-clear-no-such-hyp".

(** ** Outcomes of a call *)

Inductive failure : Type :=
| assertion_failed                (* [assert(e)] with [e] false *)
| undefined_behaviour.            (* null pointer or end iterator dereferenced *)

Inductive result (A : Type) : Type :=
| Ok (a : A)
| Failed (f : failure).

Arguments Ok {A} a.
Arguments Failed {A} f.

(** ** results_gatherer (core2.cpp, lines 96-132) *)

Section results_gatherer.

Context `{Countable KeyType} {ValueType : Type}.

(** [m_mutex] serialises the calls of [gather]: a run of a gatherer is a
    sequence of calls, each atomic.  [m_handler] is a callable; it is kept as
    the list of the arguments it has been invoked with, oldest first. *)
Record results_gatherer : Type := mk_results_gatherer {
  m_handler : list (gmap KeyType ValueType);
  m_keys : gset KeyType;
  m_results : gmap KeyType ValueType
}.

(** The constructor: [m_handler(handler), m_keys(keys)], [m_results] empty. *)
Definition make (keys : gset KeyType) : results_gatherer :=
  {| m_handler := []; m_keys := keys; m_results := ∅ |}.

(** [std::set::erase(key)]: the set without [key], and the number of
    elements removed. *)
Definition erase (key : KeyType) (s : gset KeyType) : gset KeyType * nat :=
  (s ∖ {[ key ]}, if decide (key ∈ s) then 1%nat else 0%nat).

Definition gather (key : KeyType) (value : ValueType) (g : results_gatherer)
  : result results_gatherer :=
  let '(keys, erased_count) := erase key (m_keys g) in
  (* assert(erased_count == 1) *)
  if Nat.eqb erased_count 1 then
    let results := <[ key := value ]> (m_results g) in
    if decide (keys = ∅) then
      Ok {| m_handler := m_handler g ++ [results];
            m_keys := keys; m_results := results |}
    else
      Ok {| m_handler := m_handler g; m_keys := keys; m_results := results |}
  else Failed assertion_failed.

(** A sequence of [gather] calls, in the order the mutex admits them. *)
Fixpoint gather_all (calls : list (KeyType * ValueType)) (g : results_gatherer)
  : result results_gatherer :=
  match calls with
  | [] => Ok g
  | (key, value) :: rest =>
      match gather key value g with
      | Ok g' => gather_all rest g'
      | Failed f => Failed f
      end
  end.

(** [calls] reports every member of [K] exactly once, and nothing else. *)
Definition covers_once (K : gset KeyType) (calls : list (KeyType * ValueType)) : Prop :=
  NoDup calls.*1 ∧ list_to_set calls.*1 = K.

(** The handler has been invoked exactly once when [calls] is over, with
    the map of everything reported, and not at all before the last call. *)
Definition fires_once_at_the_end (K : gset KeyType)
    (calls : list (KeyType * ValueType)) : Prop :=
  (∃ g, gather_all calls (make K) = Ok g
        ∧ m_handler g = [list_to_map calls] ∧ m_keys g = ∅)
  ∧ ∀ before after, calls = before ++ after → after ≠ [] →
      ∃ g, gather_all before (make K) = Ok g
           ∧ m_handler g = [] ∧ m_keys g ≠ ∅.

End results_gatherer.

Arguments results_gatherer KeyType {_ _} ValueType.

(** ** Values the core handles *)

(** [boost::asio::ip::address]: an IPv4 or an IPv6 address, by its number. *)
Inductive ip_address : Type :=
| address_v4 (a : Z)
| address_v6 (a : Z).

(** [boost::asio::ip::udp::endpoint], the core's [ep_type]. *)
Record ep_type : Type := mk_ep { address : ip_address; port : Z }.

(** [ep_type()]: the default-constructed endpoint, [0.0.0.0:0]. *)
Definition ep_default : ep_type := {| address := address_v4 0; port := 0 |}.

(** [freelan::endpoint] (endpoint.hpp): a contact as configured, a literal
    address or a host name to resolve. *)
Inductive endpoint : Type :=
| ipv4_endpoint (a : Z) (p : Z)
| ipv6_endpoint (a : Z) (p : Z)
| hostname_endpoint (host service : string).

#[global] Instance ip_address_eq_dec : EqDecision ip_address.
Proof. solve_decision. Defined.

#[global] Instance ep_type_eq_dec : EqDecision ep_type.
Proof. solve_decision. Defined.

#[global] Instance endpoint_eq_dec : EqDecision endpoint.
Proof. solve_decision. Defined.

(** [to_endpoint] (lines 84-94): [is_v4()] selects [to_v4()], any other
    address is read with [to_v6()]. *)
Definition to_endpoint (host : ep_type) : endpoint :=
  match address host with
  | address_v4 a => ipv4_endpoint a (port host)
  | address_v6 a => ipv6_endpoint a (port host)
  end.

(** [boost::system::error_code], by the values the core tells apart. *)
Inductive error_code : Type :=
| ec_success                 (* the default error_code: no error *)
| operation_aborted          (* boost::asio::error::operation_aborted *)
| hello_request_timed_out    (* fscp::server_error::hello_request_timed_out *)
| other_error (value : nat).

#[global] Instance error_code_eq_dec : EqDecision error_code.
Proof. solve_decision. Defined.

(** [if (ec)]: an error_code converts to true when it holds an error. *)
Definition is_error (ec : error_code) : bool :=
  match ec with ec_success => false | _ => true end.

(** [boost::posix_time]: points in time and durations, in microseconds. *)
Definition seconds (n : Z) : Z := n * 1000000.

(** [time_duration()]: the zero duration. *)
Definition time_duration_zero : Z := 0.

Definition CONTACT_PERIOD : Z := seconds 30.
Definition DYNAMIC_CONTACT_PERIOD : Z := seconds 45.
Definition DEFAULT_SERVICE : string := "12000".

Inductive log_level : Type := LL_DEBUG | LL_INFORMATION | LL_WARNING.

(** What lies outside core2.cpp and the core only uses: the certificate types
    of cryptoplus, the hashes and algorithm descriptions of fscp, the network
    ranges of the never-contact list with their membership test
    ([has_address]), [fscp::get_certificate_hash], and the X509 stores and
    store contexts of cryptoplus. *)
Class collaborators : Type := {
  cert_type : Type;
  crl_type : Type;
  identity_store : Type;
  hash_type : Type;
  ip_network_address : Type;
  cipher_algorithm_type : Type;
  algorithm_info_type : Type;
  x509_store : Type;
  store_create : x509_store;
  add_certificate : cert_type → x509_store → x509_store;
  add_certificate_revocation_list : crl_type → x509_store → x509_store;
  set_verification_flags : Z → x509_store → x509_store;
  has_address : list ip_network_address → ip_address → bool;
  get_certificate_hash : cert_type → hash_type;
  (* cryptoplus::x509::store_context, once initialised on a store and a
     certificate: what it shows of the certificate being checked, and the
     checks [verify()] makes, in order, each with the verdict ([ok]) the
     verification engine has reached on it before it asks the callback *)
  store_context : Type;
  get_current_certificate : store_context → cert_type;
  get_error_string : store_context → string;
  get_error_depth : store_context → Z;
  verification_checks : x509_store → cert_type → list (bool * store_context)
}.

(** OpenSSL's revocation flags (x509_vfy.h). *)
Definition X509_V_FLAG_CRL_CHECK : Z := 4.
Definition X509_V_FLAG_CRL_CHECK_ALL : Z := 8.

(** ** The core: configuration, timers, state *)

Section core.

Context `{collaborators}.

(** [fscp_configuration], [security_configuration] and
    [tap_adapter_configuration] (configuration.hpp), by the fields core2.cpp
    reads. *)
Record fscp_configuration : Type := {
  contact_list : list endpoint;
  dynamic_contact_list : list cert_type;
  never_contact_list : list ip_network_address;
  accept_contact_requests : bool;
  accept_contacts : bool;
  cipher_capabilities : list cipher_algorithm_type
}.

Inductive certificate_validation_method_type : Type := CVM_DEFAULT | CVM_NONE.

Inductive certificate_revocation_validation_method_type : Type :=
| CRVM_LAST | CRVM_ALL | CRVM_NONE.

(** The external validator is given the core and the certificate; it is
    taken here as a function of the certificate. *)
Record security_configuration : Type := {
  identity : option identity_store;
  certificate_validation_method : certificate_validation_method_type;
  certificate_validation_callback : option (cert_type → bool);
  certificate_revocation_validation_method :
    certificate_revocation_validation_method_type;
  certificate_authority_list : list cert_type;
  certificate_revocation_list_list : list crl_type
}.

Inductive tap_adapter_type : Type := TAT_TAP | TAT_TUN.

Record tap_adapter_configuration : Type := { type : tap_adapter_type }.

Record configuration : Type := {
  fscp : fscp_configuration;
  security : security_configuration;
  tap_adapter : tap_adapter_configuration
}.

(** The continuations the core binds, named by the member function bound:
    - [handle_contact host] is
      [bind(&core::do_handle_contact, this, host, _1, _2, _3)];
    - [handle_introduce_to t] and [handle_request_session t] are the binds of
      [do_handle_introduce_to] and [do_handle_request_session];
    - [handle_send_contact_request_to_all] that of
      [do_handle_send_contact_request_to_all]. *)
Inductive duration_handler_type : Type :=
| handle_contact (host : endpoint).

Inductive simple_handler_type : Type :=
| handle_introduce_to (target : ep_type)
| handle_request_session (target : ep_type).

Inductive multiple_endpoints_handler_type : Type :=
| handle_send_contact_request_to_all.

(** One piece of a log line, as streamed with [<<]. *)
Inductive log_item : Type :=
| text (s : string)
| of_ep (e : ep_type)
| of_endpoint (e : endpoint)
| of_message (ec : error_code)         (* ec.message() *)
| of_duration (d : Z)
| of_int (n : Z)
| of_hash (h : hash_type)
| of_subject (c : cert_type)           (* cert.subject().oneline() *)
| of_bool (b : bool)
| of_network (n : ip_network_address)
| of_algorithms (a : algorithm_info_type).

(** What the core does to the world around it, in the order it does it. *)
Inductive event : Type :=
| logged (level : log_level) (line : list log_item)
  (* the resolve visitor applied to [target], its handler being
     [resolve_handler] bound to [do_contact(_, handler)] and to
     [handler(ep_type(), _, time_duration())] *)
| resolver_async_resolve (target : endpoint) (handler : duration_handler_type)
| server_reset
| server_set_cipher_capabilities (c : list cipher_algorithm_type)
| server_set_callbacks
| server_open (listen_endpoint : ep_type)
| server_close
| server_async_greet (target : ep_type) (handler : duration_handler_type)
| server_async_introduce_to (target : ep_type) (handler : simple_handler_type)
| server_async_request_session (target : ep_type) (handler : simple_handler_type)
| server_async_send_contact_request_to_all
    (hash_list : list hash_type) (handler : multiple_endpoints_handler_type)
  (* the external validator of the configuration is invoked on [cert] *)
| validation_callback_invoked (cert : cert_type)
  (* entry of [async_contact_all] and of [async_dynamic_contact_all] *)
| contact_all_started
| dynamic_contact_all_started.

(** An asynchronous wait on a timer: still pending, or completed with the
    error code its handler will be given once the io_service runs it. *)
Inductive wait_state : Type :=
| waiting
| completed (ec : error_code).

(** [boost::asio::deadline_timer]: its expiry time and the waits started on
    it whose handlers have not run yet. *)
Record deadline_timer : Type := {
  expires_at : Z;
  waits : list wait_state
}.

(** [m_logger], by the one test the core makes on it:
    [m_logger.level() <= LL_DEBUG]. *)
Record logger : Type := { level_le_LL_DEBUG : bool }.

Record core : Type := {
  now : Z;                              (* the clock of [m_io_service] *)
  m_configuration : configuration;
  m_logger : logger;
  m_server : bool;                      (* [m_server] holds a server *)
  m_ca_store : x509_store;
  m_contact_timer : deadline_timer;
  m_dynamic_contact_timer : deadline_timer;
  trace : list event                    (* oldest first *)
}.

(** A member function of the core: it reads and updates the core, and
    returns a value unless the program stops. *)
Definition M (A : Type) : Type := core → result (A * core).

Definition ret {A} (a : A) : M A := λ s, Ok (a, s).

Definition bind {A B} (m : M A) (f : A → M B) : M B := λ s,
  match m s with
  | Ok (a, s') => f a s'
  | Failed e => Failed e
  end.

Notation "'let*' x ':=' m 'in' k" := (bind m (λ x, k))
  (at level 10, x name, m at level 100, k at level 200, only parsing).
Notation "m ;; k" := (bind m (λ _, k))
  (at level 100, k at level 200, right associativity, only parsing).

Definition get : M core := λ s, Ok (s, s).
Definition put (s : core) : M unit := λ _, Ok (tt, s).
Definition stop {A} (f : failure) : M A := λ _, Failed f.

Definition set_trace (t : list event) (s : core) : core :=
  {| now := now s; m_configuration := m_configuration s;
     m_logger := m_logger s; m_server := m_server s;
     m_ca_store := m_ca_store s;
     m_contact_timer := m_contact_timer s;
     m_dynamic_contact_timer := m_dynamic_contact_timer s;
     trace := t |}.

Definition set_now (t : Z) (s : core) : core :=
  {| now := t; m_configuration := m_configuration s;
     m_logger := m_logger s; m_server := m_server s;
     m_ca_store := m_ca_store s;
     m_contact_timer := m_contact_timer s;
     m_dynamic_contact_timer := m_dynamic_contact_timer s;
     trace := trace s |}.

Definition set_server (b : bool) (s : core) : core :=
  {| now := now s; m_configuration := m_configuration s;
     m_logger := m_logger s; m_server := b;
     m_ca_store := m_ca_store s;
     m_contact_timer := m_contact_timer s;
     m_dynamic_contact_timer := m_dynamic_contact_timer s;
     trace := trace s |}.

Definition set_ca_store (st : x509_store) (s : core) : core :=
  {| now := now s; m_configuration := m_configuration s;
     m_logger := m_logger s; m_server := m_server s;
     m_ca_store := st;
     m_contact_timer := m_contact_timer s;
     m_dynamic_contact_timer := m_dynamic_contact_timer s;
     trace := trace s |}.

Definition set_contact_timer (t : deadline_timer) (s : core) : core :=
  {| now := now s; m_configuration := m_configuration s;
     m_logger := m_logger s; m_server := m_server s;
     m_ca_store := m_ca_store s;
     m_contact_timer := t;
     m_dynamic_contact_timer := m_dynamic_contact_timer s;
     trace := trace s |}.

Definition set_dynamic_contact_timer (t : deadline_timer) (s : core) : core :=
  {| now := now s; m_configuration := m_configuration s;
     m_logger := m_logger s; m_server := m_server s;
     m_ca_store := m_ca_store s;
     m_contact_timer := m_contact_timer s;
     m_dynamic_contact_timer := t;
     trace := trace s |}.

Definition emit (e : event) : M unit := λ s,
  Ok (tt, set_trace (trace s ++ [e]) s).

(** [assert(e)] *)
Definition assertion (e : bool) : M unit :=
  if e then ret tt else stop assertion_failed.

(** [BOOST_FOREACH]: the body run on each element in turn. *)
Fixpoint foreach {A} (l : list A) (body : A → M unit) : M unit :=
  match l with
  | [] => ret tt
  | x :: rest => body x;; foreach rest body
  end.

(** [m_logger(level) << ...] *)
Definition m_logger_log (level : log_level) (line : list log_item) : M unit :=
  emit (logged level line).

(** ** The timers (boost::asio::deadline_timer) *)

(** [cancel()]: every wait still pending completes with
    [operation_aborted]; a wait that has already completed keeps the error
    code it completed with. *)
Definition cancel_wait (w : wait_state) : wait_state :=
  match w with
  | waiting => completed operation_aborted
  | completed ec => completed ec
  end.

Definition timer_cancel (t : deadline_timer) : deadline_timer :=
  {| expires_at := expires_at t; waits := cancel_wait <$> waits t |}.

(** [expires_from_now(d)]: pending waits are cancelled, and the expiry
    time becomes the present time of the io_service plus [d]. *)
Definition timer_expires_from_now (present d : Z) (t : deadline_timer)
  : deadline_timer :=
  {| expires_at := present + d; waits := cancel_wait <$> waits t |}.

(** [async_wait(handler)]: one more pending wait. *)
Definition timer_async_wait (t : deadline_timer) : deadline_timer :=
  {| expires_at := expires_at t; waits := waits t ++ [waiting] |}.

(** The io_service notices that the timer has expired: its pending waits
    complete without error. *)
Definition expire_wait (w : wait_state) : wait_state :=
  match w with
  | waiting => completed ec_success
  | completed ec => completed ec
  end.

Definition timer_expire (present : Z) (t : deadline_timer) : deadline_timer :=
  if Z.leb (expires_at t) present
  then {| expires_at := expires_at t; waits := expire_wait <$> waits t |}
  else t.

(** The timer a freshly constructed core holds:
    [m_contact_timer(m_io_service, CONTACT_PERIOD)]. *)
Definition timer_create (present d : Z) : deadline_timer :=
  {| expires_at := present + d; waits := [] |}.

(** [core::core] *)
Definition core_create (present : Z) (cfg : configuration) (lg : logger) : core :=
  {| now := present; m_configuration := cfg; m_logger := lg;
     m_server := false; m_ca_store := store_create;
     m_contact_timer := timer_create present CONTACT_PERIOD;
     m_dynamic_contact_timer := timer_create present DYNAMIC_CONTACT_PERIOD;
     trace := [] |}.

(** ** resolve_handler (lines 72-82) *)

(** [*it]: the endpoint a resolver iterator points to; the end iterator
    (no result) cannot be dereferenced. *)
Definition dereference (it : list ep_type) : M ep_type :=
  match it with
  | e :: _ => ret e
  | [] => stop undefined_behaviour
  end.

Definition resolve_handler (ec : error_code) (it : list ep_type)
    (success_handler : ep_type → M unit)
    (error_handler : error_code → M unit) : M unit :=
  if is_error ec then
    let* e := dereference it in success_handler e
  else
    error_handler ec.

(** ** Member functions of the core *)

(** [core::is_banned] (lines 206-209) *)
Definition is_banned (a : ip_address) : M bool :=
  let* s := get in
  ret (has_address (never_contact_list (fscp (m_configuration s))) a).

(** [core::async_introduce_to] (lines 343-353) *)
Definition async_introduce_to_with (target : ep_type)
    (handler : simple_handler_type) : M unit :=
  let* s := get in
  assertion (m_server s);;
  emit (server_async_introduce_to target handler).

Definition async_introduce_to (target : ep_type) : M unit :=
  async_introduce_to_with target (handle_introduce_to target).

(** [core::async_request_session] (lines 355-365) *)
Definition async_request_session_with (target : ep_type)
    (handler : simple_handler_type) : M unit :=
  let* s := get in
  assertion (m_server s);;
  emit (server_async_request_session target handler).

Definition async_request_session (target : ep_type) : M unit :=
  async_request_session_with target (handle_request_session target).

(** [m_server->f(...)]: the call of a member of the server held by
    [m_server]; there must be one. *)
Definition m_server_call (e : event) : M unit :=
  let* s := get in
  if m_server s then emit e else stop undefined_behaviour.

(** [core::do_contact] (lines 367-372) *)
Definition do_contact (a : ep_type) (handler : duration_handler_type) : M unit :=
  let* s := get in
  assertion (m_server s);;
  emit (server_async_greet a handler).

(** [core::do_handle_contact] (lines 374-393) *)
Definition do_handle_contact (host : endpoint) (a : ep_type)
    (ec : error_code) (duration : Z) : M unit :=
  if negb (is_error ec) then
    m_logger_log LL_DEBUG
      [text "Received HELLO_RESPONSE from "; of_endpoint host; text " at ";
       of_ep a; text ". Latency: "; of_duration duration; text ""];;
    async_introduce_to a
  else if decide (ec = hello_request_timed_out) then
    m_logger_log LL_DEBUG
      [text "Received no HELLO_RESPONSE from "; of_endpoint host;
       text " at "; of_ep a; text ": "; of_message ec;
       text " (timeout: "; of_duration duration; text ")"]
  else
    m_logger_log LL_DEBUG
      [text "Unable to send HELLO to "; of_endpoint host; text ": ";
       of_message ec].

(** A [duration_handler_type] invoked. *)
Definition call_duration_handler (handler : duration_handler_type)
    (a : ep_type) (ec : error_code) (duration : Z) : M unit :=
  match handler with
  | handle_contact host => do_handle_contact host a ec duration
  end.

(** [core::async_contact] (lines 286-312).  The call hands the resolver its
    handler; [async_contact_resolved] is that handler: [resolve_handler]
    with [success_handler = bind(&core::do_contact, this, _1, handler)] and
    [error_handler = bind(handler, ep_type(), _1, time_duration())]. *)
Definition async_contact_with (target : endpoint)
    (handler : duration_handler_type) : M unit :=
  emit (resolver_async_resolve target handler).

Definition async_contact_resolved (handler : duration_handler_type)
    (ec : error_code) (it : list ep_type) : M unit :=
  resolve_handler ec it
    (λ a, do_contact a handler)
    (λ ec', call_duration_handler handler ep_default ec' time_duration_zero).

Definition async_contact (target : endpoint) : M unit :=
  async_contact_with target (handle_contact target).

(** [core::async_contact_all] (lines 314-320) *)
Definition async_contact_all : M unit :=
  emit contact_all_started;;
  let* s := get in
  foreach (contact_list (fscp (m_configuration s))) async_contact.

(** [core::async_send_contact_request_to_all] (lines 333-341) *)
Definition async_send_contact_request_to_all_with (hash_list : list hash_type)
    (handler : multiple_endpoints_handler_type) : M unit :=
  m_server_call (server_async_send_contact_request_to_all hash_list handler).

Definition async_send_contact_request_to_all (hash_list : list hash_type) : M unit :=
  async_send_contact_request_to_all_with hash_list
    handle_send_contact_request_to_all.

(** [core::async_dynamic_contact_all] (lines 322-331) *)
Definition async_dynamic_contact_all : M unit :=
  emit dynamic_contact_all_started;;
  let* s := get in
  let hash_list :=
    get_certificate_hash <$> dynamic_contact_list (fscp (m_configuration s)) in
  async_send_contact_request_to_all hash_list.

Definition update_contact_timer (f : deadline_timer → deadline_timer) : M unit :=
  let* s := get in put (set_contact_timer (f (m_contact_timer s)) s).

Definition update_dynamic_contact_timer (f : deadline_timer → deadline_timer)
  : M unit :=
  let* s := get in put (set_dynamic_contact_timer (f (m_dynamic_contact_timer s)) s).

(** [core::do_handle_periodic_contact] (lines 395-404) *)
Definition do_handle_periodic_contact (ec : error_code) : M unit :=
  if decide (ec ≠ operation_aborted) then
    async_contact_all;;
    let* s := get in
    update_contact_timer (timer_expires_from_now (now s) CONTACT_PERIOD);;
    update_contact_timer timer_async_wait
  else ret tt.

(** [core::do_handle_periodic_dynamic_contact] (lines 406-415) *)
Definition do_handle_periodic_dynamic_contact (ec : error_code) : M unit :=
  if decide (ec ≠ operation_aborted) then
    async_dynamic_contact_all;;
    let* s := get in
    update_dynamic_contact_timer
      (timer_expires_from_now (now s) DYNAMIC_CONTACT_PERIOD);;
    update_dynamic_contact_timer timer_async_wait
  else ret tt.

(** [core::close_server] (lines 277-284) *)
Definition close_server : M unit :=
  update_dynamic_contact_timer timer_cancel;;
  update_contact_timer timer_cancel;;
  m_server_call server_close.

(** [core::close] (lines 193-202) *)
Definition close : M unit :=
  m_logger_log LL_DEBUG [text "Closing core..."];;
  close_server;;
  m_logger_log LL_DEBUG [text "Core closed."].

(** [core::open_server] (lines 211-275) *)
Definition open_server (listen_endpoint : ep_type) : M unit :=
  let* s := get in
  let cfg := m_configuration s in
  assertion (bool_decide (is_Some (identity (security cfg))));;
  emit server_reset;;
  let* s := get in put (set_server true s);;
  emit (server_set_cipher_capabilities (cipher_capabilities (fscp cfg)));;
  emit server_set_callbacks;;
  emit (server_open listen_endpoint);;
  match certificate_validation_method (security cfg) with
  | CVM_DEFAULT =>
      let with_cas :=
        foldl (λ st c, add_certificate c st) store_create
          (certificate_authority_list (security cfg)) in
      let with_crls :=
        foldl (λ st c, add_certificate_revocation_list c st) with_cas
          (certificate_revocation_list_list (security cfg)) in
      let store :=
        match certificate_revocation_validation_method (security cfg) with
        | CRVM_LAST => set_verification_flags X509_V_FLAG_CRL_CHECK with_crls
        | CRVM_ALL =>
            set_verification_flags
              (Z.lor X509_V_FLAG_CRL_CHECK X509_V_FLAG_CRL_CHECK_ALL) with_crls
        | CRVM_NONE => with_crls
        end in
      let* s := get in put (set_ca_store store s)
  | CVM_NONE => ret tt
  end;;
  foreach (never_contact_list (fscp cfg))
    (λ network_address,
       m_logger_log LL_INFORMATION
         [text "Configured not to accept requests from: ";
          of_network network_address]);;
  async_contact_all;;
  update_contact_timer timer_async_wait;;
  update_dynamic_contact_timer timer_async_wait.

(** [core::do_handle_send_contact_request] (lines 417-423) *)
Definition do_handle_send_contact_request (target : ep_type) (ec : error_code)
  : M unit :=
  if is_error ec then
    m_logger_log LL_WARNING
      [text "Error sending contact request to "; of_ep target; text ": ";
       of_message ec]
  else ret tt.

(** [core::do_handle_send_contact_request_to_all] (lines 425-431): the
    results, a [std::map], are visited in the order of their keys. *)
Definition do_handle_send_contact_request_to_all
    (results : list (ep_type * error_code)) : M unit :=
  foreach results (λ result,
    do_handle_send_contact_request result.1 result.2).

(** [core::do_handle_introduce_to] (lines 433-439) *)
Definition do_handle_introduce_to (target : ep_type) (ec : error_code) : M unit :=
  if is_error ec then
    m_logger_log LL_WARNING
      [text "Error sending introduction message to "; of_ep target;
       text ": "; of_message ec]
  else ret tt.

(** [core::do_handle_request_session] (lines 441-447) *)
Definition do_handle_request_session (target : ep_type) (ec : error_code)
  : M unit :=
  if is_error ec then
    m_logger_log LL_WARNING
      [text "Error requesting session to "; of_ep target; text ": ";
       of_message ec]
  else ret tt.

(** A [simple_handler_type] invoked. *)
Definition call_simple_handler (handler : simple_handler_type)
    (ec : error_code) : M unit :=
  match handler with
  | handle_introduce_to target => do_handle_introduce_to target ec
  | handle_request_session target => do_handle_request_session target ec
  end.

(** [core::do_handle_hello_received] (lines 449-466) *)
Definition do_handle_hello_received (sender : ep_type) (default_accept : bool)
  : M bool :=
  m_logger_log LL_DEBUG
    [text "Received HELLO_REQUEST from "; of_ep sender; text "."];;
  let* banned := is_banned (address sender) in
  let* default_accept :=
    (if banned then
       m_logger_log LL_WARNING
         [text "Ignoring HELLO_REQUEST from "; of_ep sender;
          text " as it is a banned host."];;
       ret false
     else ret default_accept : M bool) in
  (if default_accept then async_introduce_to sender else ret tt : M unit);;
  ret default_accept.

(** [core::do_handle_contact_request_received] (lines 468-480) *)
Definition do_handle_contact_request_received (sender : ep_type)
    (cert : cert_type) (hash : hash_type) (answer : ep_type) : M bool :=
  let* s := get in
  if accept_contact_requests (fscp (m_configuration s)) then
    m_logger_log LL_INFORMATION
      [text "Received contact request from "; of_ep sender; text " for ";
       of_subject cert; text " ("; of_hash hash; text "). Host is at: ";
       of_ep answer];;
    ret true
  else ret false.

(** [core::do_handle_contact_received] (lines 482-498) *)
Definition do_handle_contact_received (sender : ep_type) (hash : hash_type)
    (answer : ep_type) : M unit :=
  let* s := get in
  if accept_contacts (fscp (m_configuration s)) then
    let* banned := is_banned (address answer) in
    if banned then
      m_logger_log LL_WARNING
        [text "Received forbidden contact from "; of_ep sender; text ": ";
         of_hash hash; text " is at "; of_ep answer;
         text " but won't be contacted."]
    else
      m_logger_log LL_INFORMATION
        [text "Received contact from "; of_ep sender; text ": ";
         of_hash hash; text " is at: "; of_ep answer];;
      async_contact (to_endpoint answer)
  else ret tt.

(** [core::certificate_validation_method] (lines 690-705), the callback
    the verification runs on each certificate of the chain. *)
Definition certificate_validation_method_callback (ok : bool)
    (ctx : store_context) : M bool :=
  let cert := get_current_certificate ctx in
  let* s := get in
  (if level_le_LL_DEBUG (m_logger s) then
     m_logger_log LL_DEBUG
       [text "Validating "; of_subject cert; text ": ";
        text (if ok then "OK" else "Error")]
   else ret tt : M unit);;
  (if negb ok then
     m_logger_log LL_WARNING
       [text "Error when validating "; of_subject cert; text ": ";
        text (get_error_string ctx); text " (depth: ";
        of_int (get_error_depth ctx); text ")"]
   else ret tt : M unit);;
  ret ok.

(** [store_context::verify()] with [certificate_validation_callback] set
    as verification callback: the engine submits each check to the
    callback and gives up at the first one the callback refuses. *)
Fixpoint verify (checks : list (bool * store_context)) : M bool :=
  match checks with
  | [] => ret true
  | (ok, ctx) :: rest =>
      let* accepted := certificate_validation_method_callback ok ctx in
      if accepted then verify rest else ret false
  end.

(** [core::certificate_is_valid] (lines 707-745).  The store context is
    local to the call: it is initialised on [m_ca_store] and [cert], and
    given the callback above. *)
Definition certificate_is_valid (cert : cert_type) : M bool :=
  let* s := get in
  let security := security (m_configuration s) in
  let after_verification : M bool :=
    match certificate_validation_callback security with
    | Some callback =>
        emit (validation_callback_invoked cert);;
        ret (callback cert)
    | None => ret true
    end in
  match certificate_validation_method security with
  | CVM_DEFAULT =>
      let* verified := verify (verification_checks (m_ca_store s) cert) in
      if negb verified then ret false
      else after_verification
  | CVM_NONE => after_verification
  end.

(** [core::do_handle_presentation_received] (lines 500-523) *)
Definition do_handle_presentation_received (sender : ep_type)
    (sig_cert enc_cert : cert_type) (is_new : bool) : M bool :=
  let* s := get in
  (if level_le_LL_DEBUG (m_logger s) then
     m_logger_log LL_DEBUG
       [text "Received PRESENTATION from "; of_ep sender;
        text ". Signature: "; of_subject sig_cert;
        text ". Cipherment: "; of_subject enc_cert;
        text ". New presentation: "; of_bool is_new; text "."]
   else ret tt : M unit);;
  let* banned := is_banned (address sender) in
  if banned then
    m_logger_log LL_WARNING
      [text "Ignoring PRESENTATION from "; of_ep sender;
       text " as it is a banned host."];;
    ret false
  else
    let* sig_ok := certificate_is_valid sig_cert in
    let* both_ok :=
      (if sig_ok then certificate_is_valid enc_cert else ret false : M bool) in
    if both_ok then
      async_request_session sender;;
      ret true
    else ret false.

(** [core::do_handle_session_established] (lines 570-609).  The two
    branches on the adapter type hold comments only. *)
Definition do_handle_session_established (host : ep_type) (is_new : bool)
    (local remote : algorithm_info_type) : M unit :=
  (if is_new then
     m_logger_log LL_INFORMATION
       [text "Session established with "; of_ep host; text "."]
   else
     m_logger_log LL_INFORMATION
       [text "Session renewed with "; of_ep host; text "."] : M unit);;
  m_logger_log LL_INFORMATION [text "Local algorithms: "; of_algorithms local];;
  m_logger_log LL_INFORMATION [text "Remote algorithms: "; of_algorithms remote];;
  let* s := get in
  if is_new then
    match type (tap_adapter (m_configuration s)) with
    | TAT_TAP => ret tt
    | TAT_TUN => ret tt
    end
  else ret tt.

(** [core::do_handle_session_lost] (lines 611-640).  Again the two
    branches hold comments only. *)
Definition do_handle_session_lost (host : ep_type) : M unit :=
  m_logger_log LL_INFORMATION
    [text "Session with "; of_ep host; text " lost."];;
  let* s := get in
  match type (tap_adapter (m_configuration s)) with
  | TAT_TAP => ret tt
  | TAT_TUN => ret tt
  end.

(** ** The remaining callbacks and the opening of the core *)

(** [fscp::CHANNEL_NUMBER_0] and [fscp::CHANNEL_NUMBER_1] (fscp's
    constants.hpp): the channels of frames and of messages. *)
Definition CHANNEL_NUMBER_0 : Z := 0.
Definition CHANNEL_NUMBER_1 : Z := 1.

Section negotiation.

(** [operator<<] of [fscp::cipher_algorithm_type]: the name an algorithm
    is written with. *)
Variable cipher_algorithm_name : cipher_algorithm_type → string.

(** The [std::ostringstream] filled by the loop of lines 533-536: a space
    and the name of each algorithm, in order. *)
Definition capabilities_line (calg_capabilities : list cipher_algorithm_type)
  : string :=
  foldl (λ oss calg, oss +:+ " " +:+ cipher_algorithm_name calg) ""
    calg_capabilities.

Definition accept_or_deny (default_accept : bool) : string :=
  if default_accept then "accept" else "deny".

(** [core::do_handle_session_request_received] (lines 525-542) *)
Definition do_handle_session_request_received (sender : ep_type)
    (calg_capabilities : list cipher_algorithm_type) (default_accept : bool)
  : M bool :=
  m_logger_log LL_DEBUG
    [text "Received SESSION_REQUEST from "; of_ep sender;
     text " (default: "; text (accept_or_deny default_accept); text ")."];;
  let* s := get in
  (if level_le_LL_DEBUG (m_logger s) then
     m_logger_log LL_DEBUG
       [text "Cipher algorithm capabilities:";
        text (capabilities_line calg_capabilities)]
   else ret tt : M unit);;
  ret default_accept.

(** [core::do_handle_session_received] (lines 544-550) *)
Definition do_handle_session_received (sender : ep_type)
    (calg : cipher_algorithm_type) (default_accept : bool) : M bool :=
  m_logger_log LL_DEBUG
    [text "Received SESSION from "; of_ep sender;
     text " (default: "; text (accept_or_deny default_accept); text ")."];;
  m_logger_log LL_DEBUG
    [text "Cipher algorithm: "; text (cipher_algorithm_name calg)];;
  ret default_accept.

(** [core::do_handle_session_failed] (lines 552-568) *)
Definition do_handle_session_failed (host : ep_type) (is_new : bool)
    (local remote : algorithm_info_type) : M unit :=
  (if is_new then
     m_logger_log LL_WARNING
       [text "Session establishment with "; of_ep host; text " failed."]
   else
     m_logger_log LL_WARNING
       [text "Session renewal with "; of_ep host; text " failed."] : M unit);;
  m_logger_log LL_WARNING [text "Local algorithms: "; of_algorithms local];;
  m_logger_log LL_WARNING [text "Remote algorithms: "; of_algorithms remote].

(** [core::do_handle_data_received] (lines 642-679).  The channel number
    is an octet and the data a buffer of octets; the cases of the two known
    channels hold comments only (and a [try] with nothing to catch). *)
Definition do_handle_data_received (sender : ep_type) (channel_number : Z)
    (data : list Z) : M unit :=
  if decide (channel_number = CHANNEL_NUMBER_0) then
    let* s := get in
    match type (tap_adapter (m_configuration s)) with
    | TAT_TAP => ret tt
    | TAT_TUN => ret tt
    end
  else if decide (channel_number = CHANNEL_NUMBER_1) then
    ret tt
  else
    m_logger_log LL_WARNING
      [text "Received unhandled "; of_int (Z.of_nat (length data));
       text " byte(s) of data on FSCP channel #"; of_int channel_number].

(** The callbacks [open_server] registers with the server (lines 219-228),
    each with the arguments the server invokes it with. *)
Inductive server_callback : Type :=
| hello_message_received (sender : ep_type) (default_accept : bool)
| contact_request_received (sender : ep_type) (cert : cert_type)
    (hash : hash_type) (answer : ep_type)
| contact_received (sender : ep_type) (hash : hash_type) (answer : ep_type)
| presentation_message_received (sender : ep_type)
    (sig_cert enc_cert : cert_type) (is_new : bool)
| session_request_message_received (sender : ep_type)
    (calg_capabilities : list cipher_algorithm_type) (default_accept : bool)
| session_message_received (sender : ep_type) (calg : cipher_algorithm_type)
    (default_accept : bool)
| session_failed (host : ep_type) (is_new : bool)
    (local remote : algorithm_info_type)
| session_established (host : ep_type) (is_new : bool)
    (local remote : algorithm_info_type)
| session_lost (host : ep_type)
| data_received (sender : ep_type) (channel_number : Z) (data : list Z).

(** The server invokes a callback: the member function bound to it runs;
    the verdict is returned where the callback has one. *)
Definition invoke (c : server_callback) : M (option bool) :=
  match c with
  | hello_message_received sender default_accept =>
      let* r := do_handle_hello_received sender default_accept in ret (Some r)
  | contact_request_received sender cert hash answer =>
      let* r := do_handle_contact_request_received sender cert hash answer in
      ret (Some r)
  | contact_received sender hash answer =>
      do_handle_contact_received sender hash answer;; ret None
  | presentation_message_received sender sig_cert enc_cert is_new =>
      let* r :=
        do_handle_presentation_received sender sig_cert enc_cert is_new in
      ret (Some r)
  | session_request_message_received sender calg_capabilities default_accept =>
      let* r :=
        do_handle_session_request_received sender calg_capabilities
          default_accept in
      ret (Some r)
  | session_message_received sender calg default_accept =>
      let* r := do_handle_session_received sender calg default_accept in
      ret (Some r)
  | session_failed host is_new local remote =>
      do_handle_session_failed host is_new local remote;; ret None
  | session_established host is_new local remote =>
      do_handle_session_established host is_new local remote;; ret None
  | session_lost host =>
      do_handle_session_lost host;; ret None
  | data_received sender channel_number data =>
      do_handle_data_received sender channel_number data;; ret None
  end.

End negotiation.

(** [core::certificate_validation_callback] (lines 681-688), the function
    given to the store context: it finds the core in the external data of
    the context and passes [ok != 0] to [certificate_validation_method]. *)
Definition core_certificate_validation_callback (ok : Z) (ctx : store_context)
  : M Z :=
  let* accepted :=
    certificate_validation_method_callback (negb (Z.eqb ok 0)) ctx in
  ret (if accepted then 1 else 0).

(** What a C++ function that may throw does: it returns, leaving a core,
    throws, leaving a core, or stops the program. *)
Inductive exception : Type :=
| runtime_error (what : string)     (* std::runtime_error *)
| system_error (ec : error_code).   (* boost::system::system_error *)

Inductive outcome : Type :=
| returned (s : core)
| thrown (e : exception) (s : core)
| stopped (f : failure).

Section opening.

(** What [open] reads besides the core modelled above: the endpoint to
    listen on ([m_configuration.fscp.listen_on]), whether the server mode
    is enabled ([m_configuration.server.enabled]), and the resolution of an
    endpoint by [endpoint_resolve_visitor] (endpoint.hpp), which yields an
    endpoint or throws the error of the resolver. *)
Variable listen_on : endpoint.
Variable server_enabled : bool.
Variable endpoint_resolve : endpoint → ep_type + error_code.

Definition after {A} (m : M A) (s : core) (k : core → outcome) : outcome :=
  match m s with
  | Ok (_, s') => k s'
  | Failed f => stopped f
  end.

(** [core::open] (lines 156-191) *)
Definition open (s : core) : outcome :=
  after (m_logger_log LL_DEBUG [text "Opening core..."]) s (λ s,
  match endpoint_resolve listen_on with
  | inr ec => thrown (system_error ec) s
  | inl listen_endpoint =>
      after (m_logger_log LL_INFORMATION
               [text "Core set to listen on: "; of_ep listen_endpoint];;
             (if server_enabled then
                m_logger_log LL_INFORMATION [text "Server mode enabled."]
              else ret tt : M unit)) s (λ s,
      match identity (security (m_configuration s)) with
      | None =>
          thrown
            (runtime_error
               "No user certificate or private key set. Unable to continue.")
            s
      | Some _ =>
          after (open_server listen_endpoint;;
                 m_logger_log LL_DEBUG [text "Core opened."]) s returned
      end)
  end).

End opening.

(** ** The io_service, as far as the two timers go

    The core runs on a single io_service: time passes, the io_service
    notices that a timer has expired, and it runs the handler of a
    completed wait with the error code the wait completed with. *)

Inductive timer_id : Type := contact_timer | dynamic_contact_timer.

Inductive io_event : Type :=
| clock_advances (d : Z)
| timer_expires (t : timer_id)
| wait_handler_runs (t : timer_id) (i : nat).

Definition timer_forget_wait (i : nat) (t : deadline_timer) : deadline_timer :=
  {| expires_at := expires_at t; waits := delete i (waits t) |}.

Definition io_step (e : io_event) : M unit :=
  let* s := get in
  match e with
  | clock_advances d => put (set_now (now s + Z.max 0 d) s)
  | timer_expires contact_timer =>
      update_contact_timer (timer_expire (now s))
  | timer_expires dynamic_contact_timer =>
      update_dynamic_contact_timer (timer_expire (now s))
  | wait_handler_runs contact_timer i =>
      match waits (m_contact_timer s) !! i with
      | Some (completed ec) =>
          update_contact_timer (timer_forget_wait i);;
          do_handle_periodic_contact ec
      | _ => ret tt
      end
  | wait_handler_runs dynamic_contact_timer i =>
      match waits (m_dynamic_contact_timer s) !! i with
      | Some (completed ec) =>
          update_dynamic_contact_timer (timer_forget_wait i);;
          do_handle_periodic_dynamic_contact ec
      | _ => ret tt
      end
  end.

Definition io_run (events : list io_event) : M unit := foreach events io_step.

(** ** Vocabulary of the statements *)

(** The ban filter's verdict on an address, in a given core. *)
Definition banned (s : core) (a : ip_address) : bool :=
  has_address (never_contact_list (fscp (m_configuration s))) a.

(** [m] returns [a] from [s], leaving the core as it found it but for the
    events [evs] it adds to the trace. *)
Definition returns_emitting {A} (m : M A) (s : core) (a : A) (evs : list event)
  : Prop :=
  m s = Ok (a, set_trace (trace s ++ evs) s).

Definition is_logged (e : event) : bool :=
  match e with logged _ _ => true | _ => false end.

Definition is_contact (e : event) : bool :=
  match e with resolver_async_resolve _ _ => true | _ => false end.

Definition is_introduction (e : event) : bool :=
  match e with server_async_introduce_to _ _ => true | _ => false end.

Definition is_session_request (e : event) : bool :=
  match e with server_async_request_session _ _ => true | _ => false end.

Definition is_validation_callback (e : event) : bool :=
  match e with validation_callback_invoked _ => true | _ => false end.

Definition is_contact_round (e : event) : bool :=
  match e with
  | contact_all_started | dynamic_contact_all_started => true
  | _ => false
  end.

(** The chain verification of [cert] against [m_ca_store] succeeds: the
    engine has no objection on any check. *)
Definition chain_verified (s : core) (cert : cert_type) : bool :=
  forallb fst (verification_checks (m_ca_store s) cert).

(** The chain verification lets [cert] through to the external validator:
    it succeeds, or the mode is none and it is not run. *)
Definition chain_allows (s : core) (cert : cert_type) : bool :=
  match certificate_validation_method (security (m_configuration s)) with
  | CVM_DEFAULT => chain_verified s cert
  | CVM_NONE => true
  end.

(** The verdict of the external validator, true when there is none. *)
Definition external_verdict (s : core) (cert : cert_type) : bool :=
  match certificate_validation_callback (security (m_configuration s)) with
  | Some callback => callback cert
  | None => true
  end.

Definition has_external_validator (s : core) : bool :=
  match certificate_validation_callback (security (m_configuration s)) with
  | Some _ => true
  | None => false
  end.

Definition is_logged_or_validation_callback (e : event) : bool :=
  match e with
  | logged _ _ | validation_callback_invoked _ => true
  | _ => false
  end.

(** The verdict [certificate_is_valid] returns on [cert] in the core [s]. *)
Definition certificate_verdict (s : core) (cert : cert_type) : bool :=
  match certificate_is_valid cert s with
  | Ok (verdict, _) => verdict
  | Failed _ => false
  end.

(** Every wait of the timer is pending, or was completed by a cancel. *)
Definition wait_cancellable (w : wait_state) : bool :=
  match w with
  | waiting | completed operation_aborted => true
  | completed _ => false
  end.

Definition timer_cancellable (t : deadline_timer) : bool :=
  forallb wait_cancellable (waits t).

(** Every wait of the timer was completed by a cancel: its handler is due
    with [operation_aborted]. *)
Definition wait_aborted (w : wait_state) : bool :=
  match w with
  | completed operation_aborted => true
  | _ => false
  end.

Definition timer_spent (t : deadline_timer) : bool :=
  forallb wait_aborted (waits t).

(** The timer has a pending wait: its handler will run when it expires. *)
Definition timer_armed (t : deadline_timer) : bool :=
  existsb (λ w, match w with waiting => true | _ => false end) (waits t).

(** The deadline rule of C6 as stated: the new deadline is the previous
    one plus the period. *)
Definition rearmed_from_previous_expiry (period : Z)
    (before after : deadline_timer) : Prop :=
  expires_at after = expires_at before + period.

(** A core whose two timers only hold cancelled waits, seen from [s0]:
    nothing has been emitted since [s0], and no deadline has moved. *)
Definition loops_stopped_since (s0 s : core) : Prop :=
  trace s = trace s0
  ∧ expires_at (m_contact_timer s) = expires_at (m_contact_timer s0)
  ∧ expires_at (m_dynamic_contact_timer s)
      = expires_at (m_dynamic_contact_timer s0)
  ∧ timer_spent (m_contact_timer s) = true
  ∧ timer_spent (m_dynamic_contact_timer s) = true.

(** An operation the core starts toward the resolver or the server. *)
Definition is_outbound (e : event) : bool :=
  match e with
  | resolver_async_resolve _ _ | server_async_greet _ _
  | server_async_introduce_to _ _ | server_async_request_session _ _
  | server_async_send_contact_request_to_all _ _ => true
  | _ => false
  end.

Definition is_warning (e : event) : bool :=
  match e with logged LL_WARNING _ => true | _ => false end.

(** The callbacks whose handlers may start an operation. *)
Definition may_initiate (c : server_callback) : bool :=
  match c with
  | hello_message_received _ _ | contact_received _ _ _
  | presentation_message_received _ _ _ _ => true
  | _ => false
  end.

(** Each loop has at most one wait outstanding. *)
Definition loops_single (s : core) : Prop :=
  (length (waits (m_contact_timer s)) ≤ 1)%nat
  ∧ (length (waits (m_dynamic_contact_timer s)) ≤ 1)%nat.

(** The timer of a loop, the event that marks the start of one of its
    rounds, and its period. *)
Definition loop_timer (t : timer_id) (s : core) : deadline_timer :=
  match t with
  | contact_timer => m_contact_timer s
  | dynamic_contact_timer => m_dynamic_contact_timer s
  end.

Definition round_started (t : timer_id) : event :=
  match t with
  | contact_timer => contact_all_started
  | dynamic_contact_timer => dynamic_contact_all_started
  end.

Definition loop_period (t : timer_id) : Z :=
  match t with
  | contact_timer => CONTACT_PERIOD
  | dynamic_contact_timer => DYNAMIC_CONTACT_PERIOD
  end.

(** The store [open_server] builds in default validation mode. *)
Definition built_store (security : security_configuration) : x509_store :=
  let with_crls :=
    foldl (λ st c, add_certificate_revocation_list c st)
      (foldl (λ st c, add_certificate c st) store_create
         (certificate_authority_list security))
      (certificate_revocation_list_list security) in
  match certificate_revocation_validation_method security with
  | CRVM_LAST => set_verification_flags X509_V_FLAG_CRL_CHECK with_crls
  | CRVM_ALL =>
      set_verification_flags
        (Z.lor X509_V_FLAG_CRL_CHECK X509_V_FLAG_CRL_CHECK_ALL) with_crls
  | CRVM_NONE => with_crls
  end.

End core.

(** ** A world to evaluate examples in

    Certificates, revocation lists and hashes are numbers; a store is the
    list of the certificates it trusts. *)

(** Modelled from the spec: the network ranges of the never-contact list
    and [has_address] (ip_network_address.hpp is not part of the sources):
    an address is banned iff it falls within any configured range. *)
Record network_range : Type := {
  range_base : ip_address;
  range_prefix_length : Z
}.

Definition in_range (a : ip_address) (n : network_range) : bool :=
  match range_base n, a with
  | address_v4 base, address_v4 x =>
      Z.eqb (Z.shiftr base (32 - range_prefix_length n))
            (Z.shiftr x (32 - range_prefix_length n))
  | address_v6 base, address_v6 x =>
      Z.eqb (Z.shiftr base (128 - range_prefix_length n))
            (Z.shiftr x (128 - range_prefix_length n))
  | _, _ => false
  end.

Definition example_collaborators : collaborators := {|
  cert_type := nat;
  crl_type := nat;
  identity_store := nat;
  hash_type := nat;
  ip_network_address := network_range;
  cipher_algorithm_type := nat;
  algorithm_info_type := nat;
  x509_store := list nat;
  store_create := [];
  add_certificate := λ c st, st ++ [c];
  add_certificate_revocation_list := λ _ st, st;
  set_verification_flags := λ _ st, st;
  has_address := λ l a, existsb (in_range a) l;
  get_certificate_hash := λ c, c;
  store_context := nat;
  get_current_certificate := λ c, c;
  get_error_string := λ _, "unable to get local issuer certificate";
  get_error_depth := λ _, 0;
  verification_checks := λ st c, [(bool_decide (c ∈ st), c)]
|}.

Section example_world.

#[local] Existing Instance example_collaborators.

(** 198.51.100.9 and 203.0.113.5, and the range 198.51.100.0/24. *)
Definition host_198_51_100_9 : ip_address := address_v4 3325256713.
Definition host_203_0_113_5 : ip_address := address_v4 3405803781.
Definition net_198_51_100_0 : network_range :=
  {| range_base := address_v4 3325256704; range_prefix_length := 24 |}.

Definition example_configuration : configuration :=
  {| fscp := {| contact_list := [hostname_endpoint "node-a.example" "12000"];
                dynamic_contact_list := [7%nat];
                never_contact_list := [net_198_51_100_0];
                accept_contact_requests := true;
                accept_contacts := true;
                cipher_capabilities := [] |};
     security := {| identity := Some 1%nat;
                    certificate_validation_method := CVM_DEFAULT;
                    certificate_validation_callback := Some (λ _, true);
                    certificate_revocation_validation_method := CRVM_LAST;
                    certificate_authority_list := [10%nat; 11%nat];
                    certificate_revocation_list_list := [] |};
     tap_adapter := {| type := TAT_TAP |} |}.

(** A core constructed at time 0 and opened on 0.0.0.0:12000. *)
Definition example_core : core :=
  match open_server {| address := address_v4 0; port := 12000 |}
          (core_create 0 example_configuration {| level_le_LL_DEBUG := true |})
  with
  | Ok (_, s) => s
  | Failed _ => core_create 0 example_configuration {| level_le_LL_DEBUG := true |}
  end.

(** [example_core] after [close_server]. *)
Definition example_closed_core : core :=
  match close_server example_core with
  | Ok (_, s) => s
  | Failed _ => example_core
  end.

(** The static loop's first expiry, handled one second late: the clock
    reaches 31 s, the io_service notices the expiry (due at 30 s) and runs
    the handler. *)
Definition late_expiry : list io_event :=
  [clock_advances (seconds 31); timer_expires contact_timer;
   wait_handler_runs contact_timer 0].

Definition example_core_after_late_expiry : core :=
  match io_run late_expiry example_core with
  | Ok (_, s) => s
  | Failed _ => example_core
  end.

(** The example core when the first expiry of the static loop has been
    noticed and its handler has not run yet: the clock has reached 30 s and
    the wait has completed without error. *)
Definition example_core_at_expiry : core :=
  match io_run [clock_advances (seconds 30); timer_expires contact_timer]
          example_core with
  | Ok (_, s) => s
  | Failed _ => example_core
  end.

(** What the io_service may do after a close: time passes, expiries are
    noticed, the handlers of both timers run. *)
Definition after_close : list io_event :=
  [clock_advances (seconds 60); timer_expires contact_timer;
   timer_expires dynamic_contact_timer; wait_handler_runs contact_timer 0;
   wait_handler_runs dynamic_contact_timer 0;
   clock_advances (seconds 60); timer_expires contact_timer;
   wait_handler_runs contact_timer 0].

Definition peer_198_51_100_9 : ep_type :=
  {| address := host_198_51_100_9; port := 12000 |}.

Definition peer_203_0_113_5 : ep_type :=
  {| address := host_203_0_113_5; port := 12000 |}.

(** A core that was constructed and never opened. *)
Definition example_unopened_core : core :=
  core_create 0 example_configuration {| level_le_LL_DEBUG := true |}.

(** A configuration without certificate validation: none mode, and no
    external validator. *)
Definition example_open_configuration : configuration :=
  {| fscp := fscp example_configuration;
     security := {| identity := Some 1%nat;
                    certificate_validation_method := CVM_NONE;
                    certificate_validation_callback := None;
                    certificate_revocation_validation_method := CRVM_NONE;
                    certificate_authority_list := [];
                    certificate_revocation_list_list := [] |};
     tap_adapter := {| type := TAT_TUN |} |}.

Definition example_open_core : core :=
  core_create 0 example_open_configuration {| level_le_LL_DEBUG := false |}.

End example_world.

(** * Facts *)

(** ** results_gatherer *)

Section results_gatherer_facts.

Context `{Countable KeyType} {ValueType : Type}.

Implicit Types (g : results_gatherer KeyType ValueType).
Implicit Types (calls : list (KeyType * ValueType)).

Lemma gather_pending key (value : ValueType) g :
  key ∈ m_keys g →
  gather key value g =
    Ok {| m_handler :=
            if decide (m_keys g ∖ {[ key ]} = ∅)
            then m_handler g ++ [<[ key := value ]> (m_results g)]
            else m_handler g;
          m_keys := m_keys g ∖ {[ key ]};
          m_results := <[ key := value ]> (m_results g) |}.
Proof.
  intros Hin. unfold gather, erase.
  rewrite decide_True by done. simpl.
  by destruct (decide (m_keys g ∖ {[ key ]} = ∅)).
Qed.

Lemma gather_not_pending key (value : ValueType) g :
  key ∉ m_keys g → gather key value g = Failed assertion_failed.
Proof.
  intros Hnotin. unfold gather, erase. by rewrite decide_False.
Qed.

(** Recording the calls one after the other, as [m_results[key] = value]
    does, builds the map of the calls when no key comes twice. *)
Lemma record_calls calls : ∀ (m : gmap KeyType ValueType),
  NoDup calls.*1 →
  foldl (λ acc kv, <[ kv.1 := kv.2 ]> acc) m calls = list_to_map calls ∪ m.
Proof.
  induction calls as [|[k v] rest IH]; intros m Hnd; simpl.
  - by rewrite (left_id_L ∅ (∪)).
  - apply NoDup_cons in Hnd as [Hk Hnd].
    rewrite IH by done.
    rewrite <- insert_union_l, <- insert_union_r; [done|].
    by apply not_elem_of_list_to_map_1.
Qed.

(** What a run of [gather] calls does to a gatherer that still expects
    every key of the run. *)
Lemma gather_all_run calls : ∀ g,
  NoDup calls.*1 →
  list_to_set calls.*1 ⊆ m_keys g →
  ∃ g', gather_all calls g = Ok g'
        ∧ m_keys g' = m_keys g ∖ list_to_set calls.*1
        ∧ m_results g' =
            foldl (λ acc kv, <[ kv.1 := kv.2 ]> acc) (m_results g) calls
        ∧ m_handler g' =
            if decide (calls ≠ [] ∧ m_keys g' = ∅)
            then m_handler g ++ [m_results g'] else m_handler g.
Proof.
  induction calls as [|[k v] rest IH]; intros g Hnd Hsub.
  - exists g. split_and!; [done|set_solver|done|].
    case_decide; naive_solver.
  - rewrite fmap_cons in Hnd, Hsub. cbn [fst] in Hnd, Hsub.
    apply NoDup_cons in Hnd as [Hk Hnd].
    assert (k ∈ m_keys g) as Hin by set_solver.
    cbn [gather_all]. rewrite (gather_pending _ _ _ Hin).
    set (g1 := {| m_handler := _ |}).
    assert (list_to_set rest.*1 ⊆ m_keys g1) as Hsub1.
    { subst g1. cbn [m_keys]. intros x Hx. apply elem_of_difference. split.
      - set_solver.
      - intros ->%elem_of_singleton. apply Hk.
        by apply elem_of_list_to_set in Hx. }
    destruct (IH g1 Hnd Hsub1) as (g' & Hrun & Hkeys & Hres & Hh).
    exists g'. split_and!; [done| |done|].
    + rewrite Hkeys. subst g1. cbn [m_keys]. rewrite fmap_cons. set_solver.
    + rewrite Hh. clear Hh. subst g1. cbn [m_handler m_results m_keys] in *.
      destruct rest as [|kv rest'].
      * cbn [gather_all] in Hrun. injection Hrun as <-. cbn [m_keys m_results].
        repeat case_decide; naive_solver.
      * assert (m_keys g ∖ {[ k ]} ≠ ∅) as Hne.
        { intros He. rewrite He in Hsub1. rewrite fmap_cons in Hsub1.
          set_solver. }
        repeat case_decide; naive_solver.
Qed.

(** C1 (as amended): for every non-empty set of expected keys [K] and every
    sequence of [gather] calls that reports each member of [K] exactly once,
    no call aborts, the completion handler is invoked exactly once, by the
    last call, with the map of all reported values, and it has not been
    invoked after any shorter prefix of the calls, where a key of [K] is
    still pending. *)
Theorem gather_fires_once_when_all_reported (K : gset KeyType) calls :
  K ≠ ∅ → covers_once K calls → fires_once_at_the_end K calls.
Proof.
  intros Hne [Hnd Hcov]. split.
  - destruct (gather_all_run calls (make K) Hnd) as (g & Hrun & Hkeys & Hres & Hh).
    { cbn [make m_keys]. by rewrite Hcov. }
    cbn [make m_keys m_results m_handler] in Hkeys, Hres, Hh.
    assert (m_keys g = ∅) as Hdone by (rewrite Hkeys, Hcov; set_solver).
    exists g. split_and!; [done| |done].
    rewrite Hh, decide_True.
    + rewrite Hres, record_calls by done. by rewrite (right_id_L ∅ (∪)).
    + split; [|done]. intros ->. apply Hne. by rewrite <- Hcov.
  - intros before after -> Hafter.
    rewrite fmap_app in Hnd, Hcov.
    apply NoDup_app in Hnd as (Hnd & Hdisj & _).
    destruct (gather_all_run before (make K) Hnd) as (g & Hrun & Hkeys & _ & Hh).
    { cbn [make m_keys]. rewrite <- Hcov, list_to_set_app_L. set_solver. }
    cbn [make m_keys m_handler] in Hkeys, Hh.
    destruct after as [|[k v] after']; [done|].
    assert (k ∈ m_keys g) as Hk.
    { rewrite Hkeys. apply elem_of_difference. split.
      - rewrite <- Hcov, list_to_set_app_L, fmap_cons. set_solver.
      - intros Hin%elem_of_list_to_set. apply (Hdisj k Hin).
        rewrite fmap_cons. left. }
    assert (m_keys g ≠ ∅) as Hpending by set_solver.
    exists g. split_and!; [done| |done].
    rewrite Hh, decide_False; [done|]. by intros [_ ?].
Qed.

(** C8: a call of [gather] with a key that is not pending, whether it was
    never expected or has already reported, stops on the assertion: it
    returns no gatherer, so it records no value and invokes no handler.
    Conversely a call that returns was made with a pending key. *)
Theorem gather_unexpected_key_aborts key (value : ValueType) g :
  key ∉ m_keys g →
  gather key value g = Failed assertion_failed
  ∧ ∀ key', (∃ g', gather key' value g = Ok g') → key' ∈ m_keys g.
Proof.
  intros Hnotin. split; [by apply gather_not_pending|].
  intros key' [g' Hok]. destruct (decide (key' ∈ m_keys g)) as [|Hn]; [done|].
  by rewrite (gather_not_pending _ _ _ Hn) in Hok.
Qed.

(** The two ways of not being pending: a key outside the set the gatherer
    was made for, and a key that has reported. *)
Lemma gather_never_expected (K : gset KeyType) key (value : ValueType) :
  key ∉ K → gather key value (make K) = Failed assertion_failed.
Proof. intros Hnotin. by apply gather_not_pending. Qed.

Lemma gather_twice key (value value' : ValueType) g g' :
  gather key value g = Ok g' →
  gather key value' g' = Failed assertion_failed.
Proof.
  intros Hfirst. destruct (decide (key ∈ m_keys g)) as [Hin|Hnotin].
  - rewrite (gather_pending _ _ _ Hin) in Hfirst. injection Hfirst as <-.
    apply gather_not_pending. cbn [m_keys]. set_solver.
  - by rewrite (gather_not_pending _ _ _ Hnotin) in Hfirst.
Qed.

End results_gatherer_facts.

(** ** More on results_gatherer *)

Section results_gatherer_runs.

Context `{Countable KeyType} {ValueType : Type}.

Implicit Types (g : results_gatherer KeyType ValueType).
Implicit Types (calls : list (KeyType * ValueType)).

(** A run that does not stop on the assertion was made of calls with
    distinct keys, all of them pending at its start. *)
Lemma gather_all_returns_inv calls : ∀ g g',
  gather_all calls g = Ok g' →
  NoDup calls.*1 ∧ list_to_set calls.*1 ⊆ m_keys g.
Proof.
  induction calls as [|[k v] rest IH]; intros g g' Hrun.
  - split; [constructor|set_solver].
  - cbn [gather_all] in Hrun.
    destruct (decide (k ∈ m_keys g)) as [Hin|Hnotin].
    + rewrite (gather_pending _ _ _ Hin) in Hrun.
      apply IH in Hrun as [Hnd Hsub]. cbn [m_keys] in Hsub.
      rewrite fmap_cons. cbn [fst]. split.
      * apply NoDup_cons. split; [|done].
        intros Hk%(elem_of_list_to_set (C := gset KeyType)). set_solver.
      * set_solver.
    + by rewrite (gather_not_pending _ _ _ Hnotin) in Hrun.
Qed.

(** X1: whatever calls are made on a gatherer built for the keys [K], if
    none of them stops on the assertion then the calls had distinct keys,
    all in [K]; the keys still pending are those of [K] not reported; the
    results are exactly the reported values; and the handler has been
    invoked at most once: once, with the results, if at least one call was
    made and no key is pending, and not at all otherwise. *)
Theorem gather_run_is_sound (K : gset KeyType) calls g :
  gather_all calls (make K) = Ok g →
  NoDup calls.*1
  ∧ list_to_set calls.*1 ⊆ K
  ∧ m_keys g = K ∖ list_to_set calls.*1
  ∧ m_results g = list_to_map calls
  ∧ dom (m_results g) = list_to_set calls.*1
  ∧ m_handler g =
      if decide (calls ≠ [] ∧ m_keys g = ∅) then [m_results g] else [].
Proof.
  intros Hrun.
  destruct (gather_all_returns_inv _ _ _ Hrun) as [Hnd Hsub].
  cbn [make m_keys] in Hsub.
  destruct (gather_all_run calls (make K) Hnd Hsub)
    as (g' & Hrun' & Hkeys & Hres & Hh).
  rewrite Hrun in Hrun'. injection Hrun' as <-.
  cbn [make m_keys m_results m_handler] in Hkeys, Hres, Hh.
  rewrite record_calls, (right_id_L ∅ (∪)) in Hres by done.
  split_and!; [done..| |done].
  rewrite Hres. apply dom_list_to_map_L.
Qed.

(** X2: the order in which the keys report does not matter: two runs
    that report the same values for the keys of [K], each key once, in any
    two orders, leave the same gatherer, so the handler is given the same
    map. *)
Theorem gather_order_is_irrelevant (K : gset KeyType) calls calls' :
  covers_once K calls → calls ≡ₚ calls' →
  ∃ g, gather_all calls (make K) = Ok g
       ∧ gather_all calls' (make K) = Ok g.
Proof.
  intros [Hnd Hcov] Hperm.
  assert (NoDup calls'.*1) as Hnd' by (by rewrite <- Hperm).
  assert (list_to_set calls'.*1 = K) as Hcov'
    by (rewrite <- Hcov; apply set_eq; intros x;
        rewrite !elem_of_list_to_set; by rewrite Hperm).
  destruct (gather_all_run calls (make K) Hnd)
    as (g & Hrun & Hkeys & Hres & Hh);
    [cbn [make m_keys]; by rewrite Hcov|].
  destruct (gather_all_run calls' (make K) Hnd')
    as (g' & Hrun' & Hkeys' & Hres' & Hh');
    [cbn [make m_keys]; by rewrite Hcov'|].
  cbn [make m_keys m_results m_handler] in *.
  rewrite record_calls, (right_id_L ∅ (∪)) in Hres, Hres' by done.
  assert (m_results g' = m_results g) as Hsame
    by (rewrite Hres, Hres'; symmetry; by apply list_to_map_proper).
  assert (m_keys g' = m_keys g) as Hsamek by (by rewrite Hkeys, Hkeys', Hcov, Hcov').
  assert (calls = [] ↔ calls' = []) as Hnil.
  { split; intros ->.
    - by apply Permutation_nil_l in Hperm.
    - by apply Permutation_nil_r in Hperm. }
  assert (m_handler g' = m_handler g) as Hsameh.
  { rewrite Hh, Hh', Hsame, Hsamek. repeat case_decide; naive_solver. }
  exists g. split; [done|]. rewrite Hrun'. f_equal.
  destruct g, g'. cbn in *. congruence.
Qed.

End results_gatherer_runs.

(** ** Running member functions *)

Section core_facts.

Context `{collaborators}.

Implicit Types (s : core) (evs : list event).

Lemma set_trace_same s : set_trace (trace s) s = s.
Proof. by destruct s. Qed.

Lemma set_trace_twice t t' s : set_trace t' (set_trace t s) = set_trace t' s.
Proof. done. Qed.

Lemma returns_ret {A} (a : A) s : returns_emitting (ret a) s a [].
Proof.
  unfold returns_emitting, ret. by rewrite (right_id_L [] (++)), set_trace_same.
Qed.

Lemma returns_get s : returns_emitting get s s [].
Proof.
  unfold returns_emitting, get. by rewrite (right_id_L [] (++)), set_trace_same.
Qed.

Lemma returns_emit e s : returns_emitting (emit e) s tt [e].
Proof. done. Qed.

Lemma returns_log level line s :
  returns_emitting (m_logger_log level line) s tt [logged level line].
Proof. done. Qed.

Lemma returns_bind {A B} (m : M A) (k : A → M B) s a b evs evs' :
  returns_emitting m s a evs →
  returns_emitting (k a) (set_trace (trace s ++ evs) s) b evs' →
  returns_emitting (bind m k) s b (evs ++ evs').
Proof.
  unfold returns_emitting, bind. intros -> ->.
  cbn [trace set_trace]. by rewrite set_trace_twice, (assoc_L (++)).
Qed.

Lemma returns_bind_silent {A B} (m : M A) (k : A → M B) s a b evs :
  returns_emitting m s a [] →
  returns_emitting (k a) s b evs →
  returns_emitting (bind m k) s b evs.
Proof.
  intros Hm Hk. apply (returns_bind m k s a b [] evs Hm).
  by rewrite (right_id_L [] (++)), set_trace_same.
Qed.

Lemma returns_is_banned a s : returns_emitting (is_banned a) s (banned s a) [].
Proof.
  unfold returns_emitting, is_banned, bind, get, ret, banned.
  by rewrite (right_id_L [] (++)), set_trace_same.
Qed.

Lemma returns_assertion s : returns_emitting (assertion true) s tt [].
Proof. apply returns_ret. Qed.

(** What a member function does is read off the core it starts from; the
    trace only grows. *)
Lemma banned_set_trace t s a : banned (set_trace t s) a = banned s a.
Proof. done. Qed.

(** Projections of an updated core, and updates of updates. *)
Ltac tidy_core :=
  cbn beta iota zeta delta [trace set_trace m_configuration m_logger m_server
                  m_ca_store now m_contact_timer m_dynamic_contact_timer];
  rewrite ?set_trace_twice.

Ltac tidy_core_in H :=
  cbn beta iota zeta delta [trace set_trace m_configuration m_logger m_server
                  m_ca_store now m_contact_timer m_dynamic_contact_timer] in H;
  rewrite ?set_trace_twice in H.

(** Unfolds a member function into the core it returns. *)
Ltac run_member :=
  unfold returns_emitting;
  cbv beta delta [bind ret get put stop emit m_logger_log is_banned assertion
                  async_introduce_to async_introduce_to_with
                  async_request_session async_request_session_with
                  async_contact async_contact_with m_server_call do_contact];
  cbn beta iota zeta delta [trace set_trace m_configuration m_logger m_server
                  m_ca_store now m_contact_timer m_dynamic_contact_timer].

(** The events collected so far, as one list appended to the trace. *)
Ltac collect_events :=
  tidy_core;
  rewrite <- ?(assoc_L (++));
  first [ reflexivity
        | by rewrite (right_id_L [] (++)), set_trace_same ].

(** One step of a member function: the first call returns, the rest
    follows from the core it leaves. *)
Ltac step_with lemma :=
  eapply returns_bind; [apply lemma|]; cbv beta; tidy_core.

Ltac step_silent lemma :=
  eapply returns_bind_silent; [apply lemma|]; cbv beta; tidy_core.

Lemma returns_emitting_inj {A} (m : M A) s a a' evs evs' :
  returns_emitting m s a evs → returns_emitting m s a' evs' →
  a = a' ∧ evs = evs'.
Proof.
  unfold returns_emitting. intros -> [= -> Ht]. split; [done|].
  by apply (inj (app (trace s))) in Ht.
Qed.

(** ** Certificate validation *)

Lemma certificate_validation_method_callback_run ok ctx s :
  ∃ evs, returns_emitting (certificate_validation_method_callback ok ctx) s
           ok evs
         ∧ forallb is_logged evs = true.
Proof.
  unfold certificate_validation_method_callback. run_member.
  destruct (level_le_LL_DEBUG (m_logger s)), ok; cbn [negb]; run_member;
    first [ by exists []; split; [collect_events|]
          | by eexists [_]; split; [collect_events|]
          | by eexists [_; _]; split; [collect_events|] ].
Qed.

Lemma verify_run checks : ∀ s,
  ∃ evs, returns_emitting (verify checks) s (forallb fst checks) evs
         ∧ forallb is_logged evs = true.
Proof.
  induction checks as [|[ok ctx] rest IH]; intros s.
  - exists []. split; [apply returns_ret|done].
  - destruct (certificate_validation_method_callback_run ok ctx s)
      as (evs1 & Hcall & Hevs1).
    cbn [verify forallb fst]. destruct ok; cbn [andb].
    + destruct (IH (set_trace (trace s ++ evs1) s)) as (evs2 & Hrest & Hevs2).
      exists (evs1 ++ evs2). split.
      * eapply returns_bind; [apply Hcall|apply Hrest].
      * by rewrite forallb_app, Hevs1, Hevs2.
    + exists (evs1 ++ []). split.
      * eapply returns_bind; [apply Hcall|apply returns_ret].
      * by rewrite forallb_app, Hevs1.
Qed.

Lemma certificate_is_valid_run s cert :
  ∃ evs, returns_emitting (certificate_is_valid cert) s
           (chain_allows s cert && external_verdict s cert) evs
         ∧ forallb is_logged_or_validation_callback evs = true
         ∧ List.filter is_validation_callback evs =
             if chain_allows s cert && has_external_validator s
             then [validation_callback_invoked cert] else [].
Proof.
  assert (∀ evs, forallb is_logged evs = true →
            forallb is_logged_or_validation_callback evs = true
            ∧ List.filter is_validation_callback evs = []) as Hlogs.
  { clear. induction evs as [|[] evs IH]; cbn; try done. }
  assert (∀ s',
            ∃ evs, returns_emitting
                     match certificate_validation_callback
                             (security (m_configuration s)) with
                     | Some callback =>
                         bind (emit (validation_callback_invoked cert))
                           (λ _, ret (callback cert))
                     | None => ret true
                     end s' (external_verdict s cert) evs
                   ∧ forallb is_logged_or_validation_callback evs = true
                   ∧ List.filter is_validation_callback evs =
                       if has_external_validator s
                       then [validation_callback_invoked cert] else [])
    as Hafter.
  { intros s'. unfold external_verdict, has_external_validator.
    destruct (certificate_validation_callback (security (m_configuration s))).
    - eexists. split; [run_member; collect_events|done].
    - exists []. split; [apply returns_ret|done]. }
  unfold certificate_is_valid, chain_allows.
  destruct (certificate_validation_method (security (m_configuration s)))
    eqn:Hmode.
  - destruct (verify_run (verification_checks (m_ca_store s) cert) s)
      as (evs1 & Hverify & Hevs1).
    destruct (Hlogs _ Hevs1) as [Hevs1' Hevs1''].
    fold (chain_verified s cert) in Hverify.
    destruct (chain_verified s cert) eqn:Hchain; cbn [andb].
    + destruct (Hafter (set_trace (trace s ++ evs1) s))
        as (evs2 & Hrun & Hevs2 & Hevs2').
      exists (evs1 ++ evs2). split_and!.
      * step_silent returns_get. rewrite Hmode.
        eapply returns_bind; [apply Hverify|]. apply Hrun.
      * by rewrite forallb_app, Hevs1', Hevs2.
      * by rewrite List.filter_app, Hevs1'', Hevs2'.
    + exists (evs1 ++ []). split_and!.
      * step_silent returns_get. rewrite Hmode.
        eapply returns_bind; [apply Hverify|]. apply returns_ret.
      * by rewrite forallb_app, Hevs1'.
      * by rewrite List.filter_app, Hevs1''.
  - destruct (Hafter s) as (evs2 & Hrun & Hevs2 & Hevs2').
    exists evs2. split_and!; [|done..].
    step_silent returns_get. by rewrite Hmode.
Qed.

Lemma certificate_verdict_eq s cert :
  certificate_verdict s cert = chain_allows s cert && external_verdict s cert.
Proof.
  destruct (certificate_is_valid_run s cert) as (evs & Hrun & _).
  unfold certificate_verdict. by rewrite Hrun.
Qed.

Lemma certificate_verdict_set_trace t s cert :
  certificate_verdict (set_trace t s) cert = certificate_verdict s cert.
Proof. by rewrite !certificate_verdict_eq. Qed.

(** C10: in default (chain) validation mode, when the chain verification
    of a certificate fails, [certificate_is_valid] returns false and emits
    nothing but the log lines of the verification: the external validator is
    not invoked.  Whenever the external validator is invoked, the mode is
    none or the chain verification succeeded, and the validator's verdict is
    the result.  In none mode a configured validator is always invoked, and
    decides. *)
Theorem failed_chain_verification_skips_external_validator s cert :
  let security := security (m_configuration s) in
  (certificate_validation_method security = CVM_DEFAULT →
   chain_verified s cert = false →
   ∃ evs, returns_emitting (certificate_is_valid cert) s false evs
          ∧ existsb is_validation_callback evs = false)
  ∧ (∀ verdict evs,
       returns_emitting (certificate_is_valid cert) s verdict evs →
       existsb is_validation_callback evs = true →
       (certificate_validation_method security = CVM_NONE
        ∨ chain_verified s cert = true)
       ∧ ∃ callback,
           certificate_validation_callback security = Some callback
           ∧ verdict = callback cert)
  ∧ (∀ callback,
       certificate_validation_method security = CVM_NONE →
       certificate_validation_callback security = Some callback →
       returns_emitting (certificate_is_valid cert) s (callback cert)
         [validation_callback_invoked cert]).
Proof.
  cbv zeta.
  assert (∀ evs, existsb is_validation_callback evs =
                 match List.filter is_validation_callback evs with
                 | [] => false | _ => true end) as Hexists.
  { clear. induction evs as [|[] evs IH]; cbn; try done. }
  destruct (certificate_is_valid_run s cert) as (evs0 & Hrun & _ & Hfilter).
  unfold chain_allows, external_verdict, has_external_validator in *.
  split_and!.
  - intros Hmode Hchain. rewrite Hmode, Hchain in Hrun, Hfilter.
    exists evs0. split; [done|]. by rewrite Hexists, Hfilter.
  - intros verdict evs Hverdict Hinvoked.
    destruct (returns_emitting_inj _ _ _ _ _ _ Hverdict Hrun) as [-> ->].
    rewrite Hexists, Hfilter in Hinvoked.
    destruct (certificate_validation_method (security (m_configuration s))),
      (chain_verified s cert),
      (certificate_validation_callback (security (m_configuration s)))
      as [callback|]; cbn [andb] in *; try done.
    all: split; [auto|]; by exists callback.
  - intros callback Hmode Hcallback. unfold certificate_is_valid.
    step_silent returns_get. rewrite Hmode, Hcallback.
    run_member. collect_events.
Qed.

(** ** The ban filter on the inbound paths *)

(** C2: for every address [A] the ban filter matches, a hello whose sender
    has address [A] is rejected whatever the transport suggests, and nothing
    but log lines is emitted (no introduction is sent back); and a contact
    announcing an answer endpoint of address [A] emits nothing but log
    lines: no contact (no resolution followed by a greeting) is issued. *)
Theorem banned_address_rejected_and_never_contacted s (A : ip_address) :
  banned s A = true →
  (∀ sender default_accept, address sender = A →
     ∃ evs, returns_emitting (do_handle_hello_received sender default_accept)
              s false evs
            ∧ forallb is_logged evs = true
            ∧ existsb is_introduction evs = false)
  ∧ (∀ sender hash answer, address answer = A →
       ∃ evs, returns_emitting (do_handle_contact_received sender hash answer)
                s tt evs
              ∧ forallb is_logged evs = true
              ∧ existsb is_contact evs = false).
Proof.
  unfold banned. intros Hbanned. split.
  - intros sender default_accept <-. eexists. split.
    + unfold do_handle_hello_received. run_member. rewrite Hbanned.
      run_member. collect_events.
    + by cbn.
  - intros sender hash answer <-.
    destruct (accept_contacts (fscp (m_configuration s))) eqn:Haccept.
    + eexists. split.
      * unfold do_handle_contact_received. run_member.
        rewrite Haccept, Hbanned. run_member. collect_events.
      * by cbn.
    + exists []. split; [|done].
      unfold do_handle_contact_received. run_member. rewrite Haccept.
      run_member. collect_events.
Qed.

(** C3: the server being there to deliver the presentation, a presentation
    from a banned sender is rejected (the handler returns false) and no
    session is requested; from any other sender the handler returns true
    exactly when [certificate_is_valid] accepts both the signature and the
    cipherment certificate, and then it requests one session, from the
    sender; when either certificate is refused it returns false and requests
    no session. *)
Theorem presentation_accepted_iff_both_certificates_valid
    s sender (sig_cert enc_cert : cert_type) is_new :
  m_server s = true →
  ∃ evs,
    let both_valid :=
      certificate_verdict s sig_cert && certificate_verdict s enc_cert in
    let accepted := negb (banned s (address sender)) && both_valid in
    returns_emitting
      (do_handle_presentation_received sender sig_cert enc_cert is_new)
      s accepted evs
    ∧ List.filter is_session_request evs =
        if accepted
        then [server_async_request_session sender (handle_request_session sender)]
        else [].
Proof.
  intros Hserver. unfold do_handle_presentation_received.
  assert (∃ evs0, returns_emitting
            (if level_le_LL_DEBUG (m_logger s)
             then m_logger_log LL_DEBUG
                    [text "Received PRESENTATION from "; of_ep sender;
                     text ". Signature: "; of_subject sig_cert;
                     text ". Cipherment: "; of_subject enc_cert;
                     text ". New presentation: "; of_bool is_new; text "."]
             else ret ()) s tt evs0
          ∧ List.filter is_session_request evs0 = []) as (evs0 & Hlog & Hevs0).
  { destruct (level_le_LL_DEBUG (m_logger s)).
    - eexists. split; [apply returns_log|done].
    - exists []. split; [apply returns_ret|done]. }
  set (s0 := set_trace (trace s ++ evs0) s).
  destruct (certificate_is_valid_run s0 sig_cert) as (evs1 & Hsig & Hevs1 & _).
  set (s1 := set_trace (trace s0 ++ evs1) s0) in *.
  destruct (certificate_is_valid_run s1 enc_cert) as (evs2 & Henc & Hevs2 & _).
  rewrite <- certificate_verdict_eq in Hsig, Henc.
  subst s1. subst s0.
  repeat rewrite certificate_verdict_set_trace in Hsig.
  repeat rewrite certificate_verdict_set_trace in Henc.
  tidy_core_in Henc.
  assert (∀ evs, forallb is_logged_or_validation_callback evs = true →
                 List.filter is_session_request evs = []) as Hnone.
  { clear. induction evs as [|[] evs IH]; cbn; try done. }
  destruct (banned s (address sender)) eqn:Hbanned.
  - eexists. cbv zeta. cbn [negb andb]. split.
    + step_silent returns_get. step_with Hlog. step_silent returns_is_banned.
      rewrite banned_set_trace, Hbanned.
      step_with returns_log. apply returns_ret.
    + cbn. rewrite !List.filter_app, Hevs0. done.
  - destruct (certificate_verdict s sig_cert) eqn:Hv1;
      [destruct (certificate_verdict s enc_cert) eqn:Hv2|].
    + eexists. cbv zeta. cbn [negb andb]. split.
      * step_silent returns_get. step_with Hlog. step_silent returns_is_banned.
        rewrite banned_set_trace, Hbanned.
        step_with Hsig. step_with Henc.
        eapply returns_bind; [|apply returns_ret].
        unfold async_request_session, async_request_session_with.
        step_silent returns_get. cbn [m_server set_trace]. rewrite Hserver.
        step_silent returns_assertion. apply returns_emit.
      * rewrite !List.filter_app, Hevs0, (Hnone _ Hevs1), (Hnone _ Hevs2).
        done.
    + eexists. cbv zeta. cbn [negb andb]. split.
      * step_silent returns_get. step_with Hlog. step_silent returns_is_banned.
        rewrite banned_set_trace, Hbanned.
        step_with Hsig. step_with Henc. apply returns_ret.
      * rewrite !List.filter_app, Hevs0, (Hnone _ Hevs1), (Hnone _ Hevs2).
        done.
    + eexists. cbv zeta. cbn [negb andb]. split.
      * step_silent returns_get. step_with Hlog. step_silent returns_is_banned.
        rewrite banned_set_trace, Hbanned.
        step_with Hsig. step_silent (@returns_ret bool). apply returns_ret.
      * rewrite !List.filter_app, Hevs0, (Hnone _ Hevs1). done.
Qed.

(** C9 (as amended): the handler of an inbound contact request returns the
    configured [accept_contact_requests] flag, whatever the addresses of
    the sender and of the answer and whatever the never-contact list holds:
    the ban filter is not consulted on this path.  It emits at most a log
    line. *)
Theorem contact_request_verdict_is_the_configured_flag
    s sender (cert : cert_type) (hash : hash_type) answer :
  ∃ evs,
    returns_emitting
      (do_handle_contact_request_received sender cert hash answer) s
      (accept_contact_requests (fscp (m_configuration s))) evs
    ∧ forallb is_logged evs = true.
Proof.
  unfold do_handle_contact_request_received.
  destruct (accept_contact_requests (fscp (m_configuration s))) eqn:Haccept.
  - eexists. split.
    + step_silent returns_get. rewrite Haccept.
      step_with returns_log. apply returns_ret.
    + done.
  - exists []. split; [|done].
    step_silent returns_get. rewrite Haccept. apply returns_ret.
Qed.

(** ** Sessions and forwarding ports *)

(** C4 (what the code does): the handlers of session-established and of
    session-lost return after writing log lines, whatever [is_new] and the
    adapter type are: the core is left as it was but for the trace, and
    nothing but log lines is emitted, so no forwarding port is created,
    registered, unregistered or removed by either. *)
Theorem session_handlers_only_log
    s host is_new (local remote : algorithm_info_type) :
  (∃ evs, returns_emitting
            (do_handle_session_established host is_new local remote) s tt evs
          ∧ forallb is_logged evs = true)
  ∧ (∃ evs, returns_emitting (do_handle_session_lost host) s tt evs
            ∧ forallb is_logged evs = true).
Proof.
  split.
  - unfold do_handle_session_established.
    destruct is_new; eexists; (split; [|shelve]).
    all: step_with returns_log; step_with returns_log; step_with returns_log.
    all: step_silent returns_get.
    all: destruct (type (tap_adapter (m_configuration s))); apply returns_ret.
    Unshelve. all: done.
  - unfold do_handle_session_lost. eexists. split.
    + step_with returns_log. step_silent returns_get.
      destruct (type (tap_adapter (m_configuration s))); apply returns_ret.
    + done.
Qed.

(** ** Resolution of a contact *)

(** C5 (what the code does): [resolve_handler] tests [if (ec)] and takes
    the success branch when there IS an error.  On success ([ec] holds no
    error) it invokes the error handler, with the successful error code, and
    the success handler is not invoked; on an error it dereferences the
    iterator, which is the end iterator when nothing was resolved, and
    invokes the success handler if there is an endpoint to read. *)
Theorem resolve_handler_takes_the_wrong_branch
    (it : list ep_type) (success_handler : ep_type → M unit)
    (error_handler : error_code → M unit) s :
  resolve_handler ec_success it success_handler error_handler s
    = error_handler ec_success s
  ∧ (∀ ec e rest, is_error ec = true →
       resolve_handler ec (e :: rest) success_handler error_handler s
         = success_handler e s)
  ∧ (∀ ec, is_error ec = true →
       resolve_handler ec [] success_handler error_handler s
         = Failed undefined_behaviour).
Proof.
  unfold resolve_handler. split_and!.
  - done.
  - by intros ec e rest ->.
  - by intros ec ->.
Qed.

(** The consequence for [async_contact]: when the resolution of [host]
    succeeds with the endpoint [e], no greeting is sent to [e]; the contact
    handler is run as if [0.0.0.0:0] had answered a greeting in no time,
    and an introduction is sent there. *)
Lemma async_contact_resolved_on_success s host e rest :
  m_server s = true →
  returns_emitting
    (async_contact_resolved (handle_contact host) ec_success (e :: rest)) s tt
    [logged LL_DEBUG
       [text "Received HELLO_RESPONSE from "; of_endpoint host; text " at ";
        of_ep ep_default; text ". Latency: "; of_duration 0; text ""];
     server_async_introduce_to ep_default (handle_introduce_to ep_default)].
Proof.
  intros Hserver.
  unfold async_contact_resolved, resolve_handler, call_duration_handler,
    do_handle_contact. cbn [is_error negb].
  run_member. rewrite Hserver. run_member. collect_events.
Qed.

(** ** The periodic contact loops *)

Lemma foreach_async_contact_run (l : list endpoint) : ∀ s,
  returns_emitting (foreach l async_contact) s tt
    ((λ c, resolver_async_resolve c (handle_contact c)) <$> l).
Proof.
  induction l as [|c l IH]; intros s.
  - apply returns_ret.
  - cbn [foreach]. rewrite fmap_cons.
    change (?e :: ?l') with ([e] ++ l').
    eapply returns_bind; [apply returns_emit|apply IH].
Qed.

Lemma async_contact_all_run s :
  returns_emitting async_contact_all s tt
    (contact_all_started ::
       ((λ c, resolver_async_resolve c (handle_contact c))
          <$> contact_list (fscp (m_configuration s)))).
Proof.
  unfold async_contact_all.
  change (?e :: ?l') with ([e] ++ l').
  step_with returns_emit. step_silent returns_get.
  apply (foreach_async_contact_run _ (set_trace _ s)).
Qed.

Lemma async_dynamic_contact_all_run s :
  m_server s = true →
  returns_emitting async_dynamic_contact_all s tt
    [dynamic_contact_all_started;
     server_async_send_contact_request_to_all
       (get_certificate_hash
          <$> dynamic_contact_list (fscp (m_configuration s)))
       handle_send_contact_request_to_all].
Proof.
  intros Hserver.
  unfold async_dynamic_contact_all, async_send_contact_request_to_all,
    async_send_contact_request_to_all_with.
  run_member. rewrite Hserver. collect_events.
Qed.

Lemma timer_armed_async_wait t : timer_armed (timer_async_wait t) = true.
Proof.
  unfold timer_armed, timer_async_wait. cbn [waits].
  rewrite existsb_app. cbn. by rewrite orb_true_r.
Qed.

(** C6 (as amended): on every expiry that is not a cancellation, each loop
    sets its next deadline to the time of the io_service at the moment the
    handler runs plus its period (30 s for the static loop, 45 s for the
    dynamic one, which needs the server to send its request), and waits
    again.  The deadline is the previous expiry time plus the period exactly
    when the handler runs at the very time of expiry. *)
Theorem periodic_contact_rearms_from_present_time s ec :
  ec ≠ operation_aborted →
  (∃ s', do_handle_periodic_contact ec s = Ok (tt, s')
         ∧ expires_at (m_contact_timer s') = now s + seconds 30
         ∧ timer_armed (m_contact_timer s') = true
         ∧ (rearmed_from_previous_expiry CONTACT_PERIOD
              (m_contact_timer s) (m_contact_timer s')
            ↔ now s = expires_at (m_contact_timer s)))
  ∧ (m_server s = true →
     ∃ s', do_handle_periodic_dynamic_contact ec s = Ok (tt, s')
           ∧ expires_at (m_dynamic_contact_timer s') = now s + seconds 45
           ∧ timer_armed (m_dynamic_contact_timer s') = true
           ∧ (rearmed_from_previous_expiry DYNAMIC_CONTACT_PERIOD
                (m_dynamic_contact_timer s) (m_dynamic_contact_timer s')
              ↔ now s = expires_at (m_dynamic_contact_timer s))).
Proof.
  intros Hec. split.
  - unfold do_handle_periodic_contact. rewrite decide_True by done.
    unfold bind at 1. rewrite (async_contact_all_run s).
    eexists. split; [reflexivity|].
    split_and!; [done|apply timer_armed_async_wait|].
    unfold rearmed_from_previous_expiry. cbn. lia.
  - intros Hserver.
    unfold do_handle_periodic_dynamic_contact. rewrite decide_True by done.
    unfold bind at 1. rewrite (async_dynamic_contact_all_run s Hserver).
    eexists. split; [reflexivity|].
    split_and!; [done|apply timer_armed_async_wait|].
    unfold rearmed_from_previous_expiry. cbn. lia.
Qed.

Lemma cancel_wait_spent (l : list wait_state) :
  forallb wait_cancellable l = true →
  forallb wait_aborted (cancel_wait <$> l) = true.
Proof.
  induction l as [|[|[]] l IH]; cbn; try done.
Qed.

Lemma expire_wait_spent (l : list wait_state) :
  forallb wait_aborted l = true → expire_wait <$> l = l.
Proof.
  induction l as [|[|[]] l IH]; cbn; try done.
  intros Hl. by rewrite IH.
Qed.

Lemma timer_expire_spent present t :
  timer_spent t = true → timer_expire present t = t.
Proof.
  unfold timer_spent, timer_expire. intros Hspent.
  destruct (expires_at t <=? present); [|done].
  rewrite (expire_wait_spent _ Hspent). by destruct t.
Qed.

Lemma lookup_spent (l : list wait_state) i w :
  forallb wait_aborted l = true → l !! i = Some w →
  w = completed operation_aborted.
Proof.
  revert i. induction l as [|w' l IH]; intros i Hl Hi; [done|].
  cbn in Hl. apply andb_true_iff in Hl as [Hw' Hl].
  destruct i as [|i]; cbn in Hi.
  - injection Hi as <-. by destruct w' as [|[]].
  - by apply (IH i).
Qed.

Lemma delete_spent (l : list wait_state) i :
  forallb wait_aborted l = true → forallb wait_aborted (delete i l) = true.
Proof.
  revert i. induction l as [|w' l IH]; intros i Hl; [done|].
  cbn in Hl. apply andb_true_iff in Hl as [Hw' Hl].
  destruct i as [|i]; cbn; [done|].
  rewrite Hw'. by apply IH.
Qed.

Lemma spent_not_armed t : timer_spent t = true → timer_armed t = false.
Proof.
  unfold timer_spent, timer_armed.
  induction (waits t) as [|[|[]] l IH]; cbn; try done.
Qed.

Lemma periodic_handlers_ignore_abort s :
  do_handle_periodic_contact operation_aborted s = Ok (tt, s)
  ∧ do_handle_periodic_dynamic_contact operation_aborted s = Ok (tt, s).
Proof.
  unfold do_handle_periodic_contact, do_handle_periodic_dynamic_contact.
  by rewrite decide_False by (by intros []).
Qed.

Lemma io_step_stopped e s0 s :
  loops_stopped_since s0 s →
  ∃ s', io_step e s = Ok (tt, s') ∧ loops_stopped_since s0 s'.
Proof.
  intros (Htrace & Hc & Hd & Hsc & Hsd).
  unfold io_step, bind, get.
  destruct e as [d|[]|[] i].
  - eexists. split; [reflexivity|]. by repeat split.
  - unfold update_contact_timer, bind, get, put.
    rewrite (timer_expire_spent _ _ Hsc).
    eexists. split; [reflexivity|]. by repeat split.
  - unfold update_dynamic_contact_timer, bind, get, put.
    rewrite (timer_expire_spent _ _ Hsd).
    eexists. split; [reflexivity|]. by repeat split.
  - destruct (waits (m_contact_timer s) !! i) as [w|] eqn:Hi.
    + rewrite (lookup_spent _ _ _ Hsc Hi).
      unfold update_contact_timer, bind, get, put.
      rewrite (proj1 (periodic_handlers_ignore_abort _)).
      eexists. split; [reflexivity|]. repeat split; try done.
      by apply delete_spent.
    + eexists. split; [reflexivity|]. by repeat split.
  - destruct (waits (m_dynamic_contact_timer s) !! i) as [w|] eqn:Hi.
    + rewrite (lookup_spent _ _ _ Hsd Hi).
      unfold update_dynamic_contact_timer, bind, get, put.
      rewrite (proj2 (periodic_handlers_ignore_abort _)).
      eexists. split; [reflexivity|]. repeat split; try done.
      by apply delete_spent.
    + eexists. split; [reflexivity|]. by repeat split.
Qed.

Lemma io_run_stopped events : ∀ s0 s,
  loops_stopped_since s0 s →
  ∃ s', io_run events s = Ok (tt, s') ∧ loops_stopped_since s0 s'.
Proof.
  unfold io_run.
  induction events as [|e events IH]; intros s0 s Hs.
  - by exists s.
  - destruct (io_step_stopped e s0 s Hs) as (s1 & Hstep & Hs1).
    destruct (IH s0 s1 Hs1) as (s2 & Hrun & Hs2).
    exists s2. split; [|done].
    cbn [foreach]. unfold bind. by rewrite Hstep.
Qed.

Lemma close_server_stops_loops s s1 :
  timer_cancellable (m_contact_timer s) = true →
  timer_cancellable (m_dynamic_contact_timer s) = true →
  close_server s = Ok (tt, s1) →
  loops_stopped_since s1 s1
  ∧ trace s1 = trace s ++ [server_close].
Proof.
  unfold timer_cancellable. intros Hc Hd.
  unfold close_server, update_contact_timer, update_dynamic_contact_timer,
    m_server_call, bind, get, put, emit, stop.
  cbn [m_server set_contact_timer set_dynamic_contact_timer
       m_contact_timer m_dynamic_contact_timer].
  destruct (m_server s); [|done].
  intros [= <-]. split; [|done].
  repeat split; by apply cancel_wait_spent.
Qed.

Lemma close_stops_loops s s1 :
  timer_cancellable (m_contact_timer s) = true →
  timer_cancellable (m_dynamic_contact_timer s) = true →
  close s = Ok (tt, s1) →
  loops_stopped_since s1 s1
  ∧ trace s1 =
      trace s ++ [logged LL_DEBUG [text "Closing core..."]; server_close;
                  logged LL_DEBUG [text "Core closed."]].
Proof.
  intros Hc Hd. unfold close, bind at 1 2, m_logger_log, emit.
  destruct (close_server _) as [[[] s']|] eqn:Hclose; [|done].
  intros [= <-].
  apply close_server_stops_loops in Hclose
    as [(_ & _ & _ & Hsc & Hsd) Htrace]; [|done..].
  cbn [trace set_trace] in *. split.
  - by repeat split.
  - by rewrite Htrace, <- !(assoc_L (++)).
Qed.

Lemma no_contact_round_since (t t' evs : list event) :
  t' = t ++ evs → existsb is_contact_round evs = false →
  existsb is_contact_round (drop (length t) t') = false.
Proof. intros -> Hevs. by rewrite drop_app_length. Qed.

(** What the cancellation does achieve.  A timer callback invoked with
    [operation_aborted] returns at once and leaves the core as it was: it
    starts no contact round and does not rearm its timer.  And when every
    wait outstanding at the time of [close_server] (and so of [close]) is
    still pending, or cancelled already, whatever the io_service does
    next, the passing of time, expiries and the running of the handlers that
    are due, is carried out without failure and emits no event at all, so
    that neither [async_contact_all] nor [async_dynamic_contact_all] is
    entered again, and leaves both timers without a pending wait.  The
    premise on the waits is needed: see the theorem that follows. *)
Lemma cancelled_loops_never_contact_again :
  (∀ s, do_handle_periodic_contact operation_aborted s = Ok (tt, s)
        ∧ do_handle_periodic_dynamic_contact operation_aborted s = Ok (tt, s))
  ∧ (∀ s s1 events,
       timer_cancellable (m_contact_timer s) = true →
       timer_cancellable (m_dynamic_contact_timer s) = true →
       close_server s = Ok (tt, s1) ∨ close s = Ok (tt, s1) →
       ∃ s2, io_run events s1 = Ok (tt, s2)
             ∧ trace s2 = trace s1
             ∧ existsb is_contact_round (drop (length (trace s)) (trace s2))
                 = false
             ∧ timer_armed (m_contact_timer s2) = false
             ∧ timer_armed (m_dynamic_contact_timer s2) = false).
Proof.
  split; [apply periodic_handlers_ignore_abort|].
  intros s s1 events Hc Hd Hclose.
  assert (loops_stopped_since s1 s1
          ∧ ∃ evs, trace s1 = trace s ++ evs
                   ∧ existsb is_contact_round evs = false)
    as [Hstopped (evs & Htrace & Hevs)].
  { destruct Hclose as [Hclose|Hclose].
    - destruct (close_server_stops_loops s s1 Hc Hd Hclose) as [? ?]. eauto.
    - destruct (close_stops_loops s s1 Hc Hd Hclose) as [? ?]. eauto. }
  destruct (io_run_stopped events s1 s1 Hstopped)
    as (s2 & Hrun & Ht & _ & _ & Hsc & Hsd).
  exists s2. split_and!; [done|done| |by apply spent_not_armed..].
  rewrite Ht. by eapply no_contact_round_since.
Qed.

Lemma lookup_cancel_completed (l : list wait_state) i ec :
  l !! i = Some (completed ec) →
  (cancel_wait <$> l) !! i = Some (completed ec).
Proof. intros Hi. by rewrite list_lookup_fmap, Hi. Qed.

(** C7: [close] does not stop a loop whose wait has already completed.
    On a core that holds a server, if a wait of a loop's timer has
    completed with a code other than [operation_aborted] (the expiry was
    noticed, the handler is queued and has not run yet), then [close]
    returns, having cancelled both timers and closed the server, and leaves
    that wait as it completed; its handler, run afterwards, starts a round
    of the loop ([async_contact_all], or [async_dynamic_contact_all] toward
    the closed server), sets the deadline of the timer to the present time
    plus the period and waits again: the loop goes on after the close. *)
Theorem close_does_not_stop_a_completed_wait s (t : timer_id) i ec :
  m_server s = true →
  waits (loop_timer t s) !! i = Some (completed ec) →
  ec ≠ operation_aborted →
  ∃ s1 s2 evs,
    close s = Ok (tt, s1)
    ∧ waits (loop_timer t s1) !! i = Some (completed ec)
    ∧ io_step (wait_handler_runs t i) s1 = Ok (tt, s2)
    ∧ trace s2 = trace s1 ++ round_started t :: evs
    ∧ timer_armed (loop_timer t s2) = true
    ∧ expires_at (loop_timer t s2) = now s + loop_period t.
Proof.
  intros Hserver Hi Hec.
  assert (∃ s1, close s = Ok (tt, s1)
                ∧ m_server s1 = true ∧ now s1 = now s
                ∧ m_contact_timer s1 = timer_cancel (m_contact_timer s)
                ∧ m_dynamic_contact_timer s1
                    = timer_cancel (m_dynamic_contact_timer s))
    as (s1 & Hclose & Hserver1 & Hnow & Hc & Hd).
  { unfold close, close_server, m_server_call, update_contact_timer,
      update_dynamic_contact_timer, m_logger_log.
    cbv beta iota delta [bind get put emit ret stop].
    cbn beta iota zeta delta
      [trace m_server now m_contact_timer m_dynamic_contact_timer set_trace
       set_contact_timer set_dynamic_contact_timer].
    rewrite Hserver. eexists. split; [reflexivity|]. by split_and!. }
  assert (waits (loop_timer t s1) !! i = Some (completed ec)) as Hi1.
  { destruct t; cbn [loop_timer] in *; rewrite ?Hc, ?Hd; cbn [timer_cancel waits];
      by apply lookup_cancel_completed. }
  exists s1. destruct t; cbn [loop_timer round_started loop_period] in *.
  - unfold io_step, bind at 1, get at 1. rewrite Hi1.
    unfold bind at 1, update_contact_timer, bind at 1, get, put.
    unfold do_handle_periodic_contact. rewrite decide_True by done.
    unfold bind at 1. rewrite (async_contact_all_run _).
    unfold bind, get, update_contact_timer, put.
    cbn beta iota zeta delta
      [trace now m_contact_timer set_trace set_contact_timer].
    eexists. eexists. split_and!; [done|done|reflexivity|reflexivity| |].
    + cbn [m_contact_timer]. apply timer_armed_async_wait.
    + cbn. by rewrite Hnow.
  - unfold io_step, bind at 1, get at 1. rewrite Hi1.
    unfold bind at 1, update_dynamic_contact_timer, bind at 1, get, put.
    unfold do_handle_periodic_dynamic_contact. rewrite decide_True by done.
    unfold bind at 1.
    rewrite (async_dynamic_contact_all_run
               (set_dynamic_contact_timer
                  (timer_forget_wait i (m_dynamic_contact_timer s1)) s1)
               Hserver1).
    unfold bind, get, update_dynamic_contact_timer, put.
    cbn beta iota zeta delta
      [trace now m_dynamic_contact_timer set_trace set_dynamic_contact_timer].
    eexists. eexists. split_and!; [done|done|reflexivity|reflexivity| |].
    + cbn [m_dynamic_contact_timer]. apply timer_armed_async_wait.
    + cbn. by rewrite Hnow.
Qed.

(** ** The inbound paths, beyond the ban filter *)

Lemma hello_run s sender default_accept :
  m_server s = true →
  ∃ evs,
    let accepted := negb (banned s (address sender)) && default_accept in
    returns_emitting (do_handle_hello_received sender default_accept) s
      accepted evs
    ∧ List.filter is_outbound evs =
        if accepted
        then [server_async_introduce_to sender (handle_introduce_to sender)]
        else [].
Proof.
  intros Hserver. unfold do_handle_hello_received. cbv zeta.
  destruct (banned s (address sender)) eqn:Hbanned; cbn [negb andb].
  - eexists. split.
    + step_with returns_log. step_silent returns_is_banned.
      rewrite banned_set_trace, Hbanned.
      eapply returns_bind.
      { step_with returns_log. apply returns_ret. }
      cbv beta. tidy_core. step_silent (@returns_ret unit). apply returns_ret.
    + done.
  - destruct default_accept.
    + eexists. split.
      * step_with returns_log. step_silent returns_is_banned.
        rewrite banned_set_trace, Hbanned.
        step_silent (@returns_ret bool).
        eapply returns_bind; [|apply returns_ret].
        unfold async_introduce_to, async_introduce_to_with.
        step_silent returns_get. rewrite Hserver.
        step_silent returns_assertion. apply returns_emit.
      * done.
    + eexists. split.
      * step_with returns_log. step_silent returns_is_banned.
        rewrite banned_set_trace, Hbanned.
        step_silent (@returns_ret bool).
        step_silent (@returns_ret unit). apply returns_ret.
      * done.
Qed.

(** X3: the server being there, a hello from a sender that is not banned
    gets the verdict the transport suggests; when it is accepted exactly
    one operation is started, an introduction to the sender, and when it is
    refused none is. *)
Theorem hello_verdict_follows_transport_default s sender default_accept :
  m_server s = true →
  banned s (address sender) = false →
  ∃ evs,
    returns_emitting (do_handle_hello_received sender default_accept) s
      default_accept evs
    ∧ List.filter is_outbound evs =
        if default_accept
        then [server_async_introduce_to sender (handle_introduce_to sender)]
        else [].
Proof.
  intros Hserver Hbanned.
  destruct (hello_run s sender default_accept Hserver) as (evs & Hrun).
  cbv zeta in Hrun. rewrite Hbanned in Hrun. by exists evs.
Qed.

Lemma contact_received_run s sender hash answer :
  ∃ evs,
    let followed :=
      accept_contacts (fscp (m_configuration s))
      && negb (banned s (address answer)) in
    returns_emitting (do_handle_contact_received sender hash answer) s tt evs
    ∧ List.filter is_outbound evs =
        (if followed
         then [resolver_async_resolve (to_endpoint answer)
                 (handle_contact (to_endpoint answer))]
         else [])
    ∧ (accept_contacts (fscp (m_configuration s)) = false → evs = []).
Proof.
  unfold do_handle_contact_received. cbv zeta.
  destruct (accept_contacts (fscp (m_configuration s))) eqn:Haccept;
    cbn [andb].
  - destruct (banned s (address answer)) eqn:Hbanned; cbn [negb].
    + eexists. split.
      { step_silent returns_get. rewrite Haccept.
        step_silent returns_is_banned. rewrite Hbanned. apply returns_log. }
      by split.
    + eexists. split.
      { step_silent returns_get. rewrite Haccept.
        step_silent returns_is_banned. rewrite Hbanned.
        step_with returns_log. apply returns_emit. }
      by split.
  - exists []. split; [|by split].
    step_silent returns_get. rewrite Haccept. apply returns_ret.
Qed.

(** X4: a contact announcing an answer endpoint that is not banned is
    followed when [accept_contacts] is set: exactly one operation is
    started, the contact of the announced endpoint as a literal endpoint,
    whose outcome will be handled for that same endpoint.  When
    [accept_contacts] is not set the handler does nothing at all, not even
    a log line. *)
Theorem contact_received_contacts_announced_endpoint s sender hash answer :
  banned s (address answer) = false →
  ∃ evs,
    returns_emitting (do_handle_contact_received sender hash answer) s tt evs
    ∧ List.filter is_outbound evs =
        (if accept_contacts (fscp (m_configuration s))
         then [resolver_async_resolve (to_endpoint answer)
                 (handle_contact (to_endpoint answer))]
         else [])
    ∧ (accept_contacts (fscp (m_configuration s)) = false → evs = []).
Proof.
  intros Hbanned.
  destruct (contact_received_run s sender hash answer) as (evs & Hrun).
  cbv zeta in Hrun. rewrite Hbanned, andb_true_r in Hrun. by exists evs.
Qed.

(** X5: [to_endpoint] loses nothing: two UDP endpoints have the same
    literal endpoint only if they are equal, and the result is never a host
    name to resolve. *)
Theorem to_endpoint_is_faithful (a b : ep_type) :
  (to_endpoint a = to_endpoint b ↔ a = b)
  ∧ ∀ host service, to_endpoint a ≠ hostname_endpoint host service.
Proof.
  split.
  - split; [|by intros ->].
    destruct a as [[x|x] p], b as [[y|y] q]; cbn; congruence.
  - intros host service. by destruct a as [[x|x] p].
Qed.

(** X6: the outcome of a greeting, the server being there: on success one
    debug line is written and exactly one operation is started, the
    introduction to the address that answered; on any error, a timeout or
    another, one debug line is written and nothing is started: there is no
    retry. *)
Theorem greeting_outcome_is_introduced_or_logged s host a ec duration :
  m_server s = true →
  ∃ line evs,
    returns_emitting (do_handle_contact host a ec duration) s tt
      (logged LL_DEBUG line :: evs)
    ∧ evs = if is_error ec then []
            else [server_async_introduce_to a (handle_introduce_to a)].
Proof.
  intros Hserver. unfold do_handle_contact.
  destruct (is_error ec) eqn:Herror; cbn [negb].
  - destruct (decide (ec = hello_request_timed_out));
      eexists _, []; (split; [apply returns_log|done]).
  - eexists _, [_]. split; [|done].
    change (?e :: ?l) with ([e] ++ l).
    step_with returns_log.
    unfold async_introduce_to, async_introduce_to_with.
    step_silent returns_get. rewrite Hserver.
    step_silent returns_assertion. apply returns_emit.
Qed.

(** ** Session negotiation, data, and the callbacks as a whole *)

Lemma logged_not_outbound evs :
  forallb is_logged evs = true → List.filter is_outbound evs = [].
Proof. induction evs as [|[] evs IH]; cbn; try done. Qed.

Lemma contact_request_run s sender (cert : cert_type) (hash : hash_type) answer :
  ∃ r evs,
    returns_emitting
      (do_handle_contact_request_received sender cert hash answer) s r evs
    ∧ forallb is_logged evs = true.
Proof.
  unfold do_handle_contact_request_received.
  destruct (accept_contact_requests (fscp (m_configuration s))) eqn:Haccept.
  - eexists _, _. split.
    { step_silent returns_get. rewrite Haccept.
      step_with returns_log. apply returns_ret. }
    done.
  - exists false, []. split; [|done].
    step_silent returns_get. rewrite Haccept. apply returns_ret.
Qed.

Lemma session_established_run s host is_new (local remote : algorithm_info_type) :
  ∃ evs,
    returns_emitting (do_handle_session_established host is_new local remote)
      s tt evs
    ∧ forallb is_logged evs = true.
Proof.
  unfold do_handle_session_established.
  destruct is_new; eexists; (split; [|shelve]).
  all: step_with returns_log; step_with returns_log; step_with returns_log.
  all: step_silent returns_get.
  all: destruct (type (tap_adapter (m_configuration s))); apply returns_ret.
  Unshelve. all: done.
Qed.

Lemma session_lost_run s host :
  ∃ evs, returns_emitting (do_handle_session_lost host) s tt evs
         ∧ forallb is_logged evs = true.
Proof.
  unfold do_handle_session_lost. eexists. split.
  - step_with returns_log. step_silent returns_get.
    destruct (type (tap_adapter (m_configuration s))); apply returns_ret.
  - done.
Qed.

Lemma session_failed_run s host is_new (local remote : algorithm_info_type) :
  ∃ line,
    returns_emitting (do_handle_session_failed host is_new local remote) s tt
      [logged LL_WARNING line;
       logged LL_WARNING [text "Local algorithms: "; of_algorithms local];
       logged LL_WARNING [text "Remote algorithms: "; of_algorithms remote]].
Proof.
  unfold do_handle_session_failed.
  destruct is_new; eexists.
  all: change [?a; ?b; ?c] with ([a] ++ [b] ++ [c]).
  all: step_with returns_log; step_with returns_log; apply returns_log.
Qed.

Lemma data_received_run s sender channel_number data :
  returns_emitting (do_handle_data_received sender channel_number data) s tt
    (if decide (channel_number = CHANNEL_NUMBER_0 ∨
                channel_number = CHANNEL_NUMBER_1)
     then []
     else [logged LL_WARNING
             [text "Received unhandled "; of_int (Z.of_nat (length data));
              text " byte(s) of data on FSCP channel #";
              of_int channel_number]]).
Proof.
  unfold do_handle_data_received.
  destruct (decide (channel_number = CHANNEL_NUMBER_0)) as [H0|H0].
  - rewrite decide_True by auto.
    step_silent returns_get.
    destruct (type (tap_adapter (m_configuration s))); apply returns_ret.
  - destruct (decide (channel_number = CHANNEL_NUMBER_1)) as [H1|H1].
    + rewrite decide_True by auto. apply returns_ret.
    + rewrite decide_False by (by intros [|]). apply returns_log.
Qed.

Lemma presentation_run s sender (sig_cert enc_cert : cert_type) is_new :
  m_server s = true →
  ∃ r evs,
    returns_emitting
      (do_handle_presentation_received sender sig_cert enc_cert is_new)
      s r evs
    ∧ (length (List.filter is_outbound evs) ≤ 1)%nat.
Proof.
  intros Hserver. unfold do_handle_presentation_received.
  assert (∀ evs, forallb is_logged_or_validation_callback evs = true →
                 List.filter is_outbound evs = []) as Hnone.
  { clear. induction evs as [|[] evs IH]; cbn; try done. }
  assert (∃ evs0, returns_emitting
            (if level_le_LL_DEBUG (m_logger s)
             then m_logger_log LL_DEBUG
                    [text "Received PRESENTATION from "; of_ep sender;
                     text ". Signature: "; of_subject sig_cert;
                     text ". Cipherment: "; of_subject enc_cert;
                     text ". New presentation: "; of_bool is_new; text "."]
             else ret ()) s tt evs0
          ∧ List.filter is_outbound evs0 = []) as (evs0 & Hlog & Hevs0).
  { destruct (level_le_LL_DEBUG (m_logger s)).
    - eexists. split; [apply returns_log|done].
    - exists []. split; [apply returns_ret|done]. }
  set (s0 := set_trace (trace s ++ evs0) s).
  destruct (certificate_is_valid_run s0 sig_cert) as (evs1 & Hsig & Hevs1 & _).
  set (s1 := set_trace (trace s0 ++ evs1) s0) in *.
  destruct (certificate_is_valid_run s1 enc_cert) as (evs2 & Henc & Hevs2 & _).
  apply Hnone in Hevs1, Hevs2.
  subst s1. subst s0. tidy_core_in Henc.
  destruct (banned s (address sender)) eqn:Hbanned.
  - eexists _, _. split.
    { step_silent returns_get. step_with Hlog. step_silent returns_is_banned.
      rewrite banned_set_trace, Hbanned.
      step_with returns_log. apply returns_ret. }
    rewrite !List.filter_app, Hevs0. cbn. lia.
  - destruct (chain_allows _ sig_cert && external_verdict _ sig_cert);
      [destruct (chain_allows _ enc_cert && external_verdict _ enc_cert)|].
    + eexists _, _. split.
      { step_silent returns_get. step_with Hlog. step_silent returns_is_banned.
        rewrite banned_set_trace, Hbanned.
        step_with Hsig. step_with Henc.
        eapply returns_bind; [|apply returns_ret].
        unfold async_request_session, async_request_session_with.
        step_silent returns_get. cbn [m_server set_trace]. rewrite Hserver.
        step_silent returns_assertion. apply returns_emit. }
      rewrite !List.filter_app, Hevs0, Hevs1, Hevs2. cbn. lia.
    + eexists _, _. split.
      { step_silent returns_get. step_with Hlog. step_silent returns_is_banned.
        rewrite banned_set_trace, Hbanned.
        step_with Hsig. step_with Henc. apply returns_ret. }
      rewrite !List.filter_app, Hevs0, Hevs1, Hevs2. cbn. lia.
    + eexists _, _. split.
      { step_silent returns_get. step_with Hlog. step_silent returns_is_banned.
        rewrite banned_set_trace, Hbanned.
        step_with Hsig. step_silent (@returns_ret bool). apply returns_ret. }
      rewrite !List.filter_app, Hevs0, Hevs1. cbn. lia.
Qed.

Section negotiation_facts.

Variable cipher_algorithm_name : cipher_algorithm_type → string.

Lemma session_request_run s sender calg_capabilities default_accept :
  ∃ evs,
    returns_emitting
      (do_handle_session_request_received cipher_algorithm_name sender
         calg_capabilities default_accept) s default_accept evs
    ∧ forallb is_logged evs = true.
Proof.
  unfold do_handle_session_request_received.
  destruct (level_le_LL_DEBUG (m_logger s)) eqn:Hdebug.
  - eexists. split.
    { step_with returns_log. step_silent returns_get. rewrite Hdebug.
      step_with returns_log. apply returns_ret. }
    done.
  - eexists. split.
    { step_with returns_log. step_silent returns_get. rewrite Hdebug.
      step_silent (@returns_ret unit). apply returns_ret. }
    done.
Qed.

Lemma session_run s sender calg default_accept :
  ∃ evs,
    returns_emitting
      (do_handle_session_received cipher_algorithm_name sender calg
         default_accept) s default_accept evs
    ∧ forallb is_logged evs = true.
Proof.
  unfold do_handle_session_received. eexists. split.
  { step_with returns_log. step_with returns_log. apply returns_ret. }
  done.
Qed.

(** X7: the handlers of a session request and of a session return the
    verdict the transport suggests, whoever the sender is (a banned address
    included: the ban filter is not consulted here) and whatever algorithms
    are offered or chosen; they write debug lines and do nothing else. *)
Theorem session_verdicts_are_the_transport_default
    s sender calg_capabilities calg default_accept :
  (∃ evs,
     returns_emitting
       (do_handle_session_request_received cipher_algorithm_name sender
          calg_capabilities default_accept) s default_accept evs
     ∧ forallb is_logged evs = true)
  ∧ (∃ evs,
       returns_emitting
         (do_handle_session_received cipher_algorithm_name sender calg
            default_accept) s default_accept evs
       ∧ forallb is_logged evs = true).
Proof. split; [apply session_request_run|apply session_run]. Qed.

(** X8: data on channel 0 or on channel 1 is dropped without a trace: the
    handler returns and emits nothing, whatever the adapter type and the
    payload.  Data on any other channel is dropped too, with one warning
    that tells the size of the payload and the channel number. *)
Theorem data_is_dropped s sender channel_number data :
  returns_emitting (do_handle_data_received sender channel_number data) s tt
    (if decide (channel_number = CHANNEL_NUMBER_0 ∨
                channel_number = CHANNEL_NUMBER_1)
     then []
     else [logged LL_WARNING
             [text "Received unhandled "; of_int (Z.of_nat (length data));
              text " byte(s) of data on FSCP channel #";
              of_int channel_number]]).
Proof. apply data_received_run. Qed.

(** X9: the server being there, every callback it may invoke returns:
    none stops the program, and none changes anything of the core but the
    trace (the configuration, the store, the timers and the clock are left
    as they were).  Each starts at most one operation, and only the
    handlers of a hello, of a contact and of a presentation start any: the
    others emit nothing but log lines. *)
Theorem every_callback_returns s (c : server_callback) :
  m_server s = true →
  ∃ verdict evs,
    returns_emitting (invoke cipher_algorithm_name c) s verdict evs
    ∧ (length (List.filter is_outbound evs) ≤ 1)%nat
    ∧ (may_initiate c = false → forallb is_logged evs = true).
Proof.
  intros Hserver.
  assert (∀ {A} (m : M A) r evs,
            returns_emitting m s r evs →
            returns_emitting (bind m (λ r, ret (Some r))) s (Some r) evs)
    as Hverdict.
  { intros A m r evs Hm. rewrite <- (right_id_L [] (++) evs).
    eapply returns_bind; [apply Hm|apply returns_ret]. }
  assert (∀ (m : M unit) evs,
            returns_emitting m s tt evs →
            returns_emitting (bind m (λ _, ret (@None bool))) s None evs)
    as Hvoid.
  { intros m evs Hm. rewrite <- (right_id_L [] (++) evs).
    eapply returns_bind; [apply Hm|apply returns_ret]. }
  assert (∀ evs, forallb is_logged evs = true →
            (length (List.filter is_outbound evs) ≤ 1)%nat) as Hlogs.
  { intros evs Hevs. rewrite (logged_not_outbound _ Hevs). cbn. lia. }
  destruct c; cbn [invoke may_initiate].
  - destruct (hello_run s sender default_accept Hserver) as (evs & Hrun & Hout).
    eexists _, evs. split_and!; [by apply Hverdict| |done].
    rewrite Hout. case_match; cbn; lia.
  - destruct (contact_request_run s sender cert hash answer)
      as (r & evs & Hrun & Hevs).
    eexists _, evs. split_and!; [by apply Hverdict|by apply Hlogs|done].
  - destruct (contact_received_run s sender hash answer)
      as (evs & Hrun & Hout & _).
    eexists _, evs. split_and!; [by apply Hvoid| |done].
    rewrite Hout. case_match; cbn; lia.
  - destruct (presentation_run s sender sig_cert enc_cert is_new Hserver)
      as (r & evs & Hrun & Hout).
    eexists _, evs. split_and!; [by apply Hverdict|done|done].
  - destruct (session_request_run s sender calg_capabilities default_accept)
      as (evs & Hrun & Hevs).
    eexists _, evs. split_and!; [by apply Hverdict|by apply Hlogs|done].
  - destruct (session_run s sender calg default_accept) as (evs & Hrun & Hevs).
    eexists _, evs. split_and!; [by apply Hverdict|by apply Hlogs|done].
  - destruct (session_failed_run s host is_new local remote) as (line & Hrun).
    eexists _, _. split_and!; [by apply Hvoid|cbn; lia|done].
  - destruct (session_established_run s host is_new local remote)
      as (evs & Hrun & Hevs).
    eexists _, evs. split_and!; [by apply Hvoid|by apply Hlogs|done].
  - destruct (session_lost_run s host) as (evs & Hrun & Hevs).
    eexists _, evs. split_and!; [by apply Hvoid|by apply Hlogs|done].
  - pose proof (data_received_run s sender channel_number data) as Hrun.
    eexists _, _. split_and!; [by apply Hvoid| |intros _].
    all: case_decide; cbn; try done; lia.
Qed.

End negotiation_facts.

(** ** More on certificate validation *)

(** X10: the callback given to the verification engine never overrides
    it: it returns 1 exactly when it is given a non-zero [ok], and 0 when
    it is given 0; it only writes log lines, with one warning, telling the
    error and its depth, exactly when [ok] is 0. *)
Theorem verification_callback_keeps_the_engine_verdict s ok ctx :
  ∃ evs,
    returns_emitting (core_certificate_validation_callback ok ctx) s
      (if Z.eqb ok 0 then 0 else 1) evs
    ∧ forallb is_logged evs = true
    ∧ List.filter is_warning evs =
        if Z.eqb ok 0
        then [logged LL_WARNING
                [text "Error when validating ";
                 of_subject (get_current_certificate ctx); text ": ";
                 text (get_error_string ctx); text " (depth: ";
                 of_int (get_error_depth ctx); text ")"]]
        else [].
Proof.
  assert (∃ evs,
            returns_emitting
              (certificate_validation_method_callback (negb (Z.eqb ok 0)) ctx)
              s (negb (Z.eqb ok 0)) evs
            ∧ forallb is_logged evs = true
            ∧ List.filter is_warning evs =
                if Z.eqb ok 0
                then [logged LL_WARNING
                        [text "Error when validating ";
                         of_subject (get_current_certificate ctx); text ": ";
                         text (get_error_string ctx); text " (depth: ";
                         of_int (get_error_depth ctx); text ")"]]
                else []) as (evs & Hrun & Hevs).
  { unfold certificate_validation_method_callback.
    destruct (level_le_LL_DEBUG (m_logger s)) eqn:Hdebug,
      (Z.eqb ok 0) eqn:Hok; cbn [negb].
    all: eexists; split;
      [ step_silent returns_get; rewrite Hdebug;
        first [ step_with returns_log | step_silent (@returns_ret unit) ];
        first [ step_with returns_log | step_silent (@returns_ret unit) ];
        apply returns_ret
      | by split ]. }
  exists evs. split; [|done].
  unfold core_certificate_validation_callback.
  rewrite <- (right_id_L [] (++) evs).
  eapply returns_bind; [apply Hrun|].
  destruct (Z.eqb ok 0); apply returns_ret.
Qed.

Lemma logged_when_no_validation_callback evs :
  forallb is_logged_or_validation_callback evs = true →
  List.filter is_validation_callback evs = [] →
  forallb is_logged evs = true.
Proof. induction evs as [|[] evs IH]; cbn; try done. Qed.

(** X11: when no external validator is configured, the verdict on a
    certificate is that of the chain verification alone, and only log lines
    are written; in none mode, where no verification is run, every
    certificate is accepted and nothing at all is emitted. *)
Theorem validation_without_external_validator s cert :
  certificate_validation_callback (security (m_configuration s)) = None →
  ∃ evs,
    returns_emitting (certificate_is_valid cert) s (chain_allows s cert) evs
    ∧ forallb is_logged evs = true
    ∧ (certificate_validation_method (security (m_configuration s)) = CVM_NONE
       → chain_allows s cert = true ∧ evs = []).
Proof.
  intros Hnone.
  destruct (certificate_is_valid_run s cert) as (evs & Hrun & Hevs & Hfilter).
  unfold external_verdict, has_external_validator in Hrun, Hfilter.
  rewrite Hnone, andb_true_r in Hrun. rewrite Hnone, andb_false_r in Hfilter.
  exists evs. split_and!; [done|by apply logged_when_no_validation_callback|].
  intros Hmode. unfold chain_allows in *. rewrite Hmode in *.
  split; [done|].
  assert (returns_emitting (certificate_is_valid cert) s true []) as Hdirect.
  { unfold certificate_is_valid. step_silent returns_get.
    rewrite Hmode, Hnone. apply returns_ret. }
  by destruct (returns_emitting_inj _ _ _ _ _ _ Hrun Hdirect).
Qed.

(** X12: a certificate is accepted only if the chain verification let it
    through (it verified against the store, or the mode is none) and the
    external validator, if there is one, accepted it: the validator can
    refuse what the chain verification accepts, never rescue what it
    refuses. *)
Theorem accepted_certificates_passed_every_check s cert evs :
  returns_emitting (certificate_is_valid cert) s true evs →
  chain_allows s cert = true ∧ external_verdict s cert = true.
Proof.
  intros Haccepted.
  destruct (certificate_is_valid_run s cert) as (evs' & Hrun & _).
  destruct (returns_emitting_inj _ _ _ _ _ _ Haccepted Hrun) as [Hv _].
  symmetry in Hv. by apply andb_true_iff in Hv.
Qed.

(** ** Completion handlers *)

Lemma send_contact_request_run target ec s :
  returns_emitting (do_handle_send_contact_request target ec) s tt
    (if is_error ec
     then [logged LL_WARNING
             [text "Error sending contact request to "; of_ep target;
              text ": "; of_message ec]]
     else []).
Proof.
  unfold do_handle_send_contact_request.
  destruct (is_error ec); [apply returns_log|apply returns_ret].
Qed.

(** X13: when all the peers of a contact request have answered, one
    warning is written for each peer whose request failed, naming the peer
    and the error, in the order of the results, and nothing for the peers
    whose request succeeded; nothing else is done (no request is sent
    again). *)
Theorem contact_request_failures_are_logged
    (results : list (ep_type * error_code)) s :
  returns_emitting (do_handle_send_contact_request_to_all results) s tt
    ((λ result,
        logged LL_WARNING
          [text "Error sending contact request to "; of_ep result.1;
           text ": "; of_message result.2])
       <$> List.filter (λ result, is_error result.2) results).
Proof.
  unfold do_handle_send_contact_request_to_all.
  revert s. induction results as [|[target ec] results IH]; intros s.
  - apply returns_ret.
  - cbn [foreach List.filter fst snd].
    pose proof (send_contact_request_run target ec s) as Hfirst.
    destruct (is_error ec).
    + rewrite fmap_cons. change (?e :: ?l) with ([e] ++ l).
      eapply returns_bind; [apply Hfirst|apply IH].
    + eapply returns_bind_silent; [apply Hfirst|apply IH].
Qed.

(** ** Opening and closing *)

Lemma foreach_log_run {A} level (line : A → list log_item) (l : list A) : ∀ s,
  returns_emitting (foreach l (λ x, m_logger_log level (line x))) s tt
    ((λ x, logged level (line x)) <$> l).
Proof.
  induction l as [|x l IH]; intros s.
  - apply returns_ret.
  - cbn [foreach]. rewrite fmap_cons.
    change (?e :: ?l') with ([e] ++ l').
    eapply returns_bind; [apply returns_log|apply IH].
Qed.

(** The events of [open_server], in order. *)
Lemma open_server_run listen_endpoint s i :
  identity (security (m_configuration s)) = Some i →
  ∃ s',
    open_server listen_endpoint s = Ok (tt, s')
    ∧ m_server s' = true
    ∧ m_configuration s' = m_configuration s
    ∧ m_logger s' = m_logger s
    ∧ now s' = now s
    ∧ m_ca_store s' =
        match certificate_validation_method (security (m_configuration s)) with
        | CVM_DEFAULT => built_store (security (m_configuration s))
        | CVM_NONE => m_ca_store s
        end
    ∧ m_contact_timer s' = timer_async_wait (m_contact_timer s)
    ∧ m_dynamic_contact_timer s' =
        timer_async_wait (m_dynamic_contact_timer s)
    ∧ trace s' =
        trace s
        ++ [server_reset;
            server_set_cipher_capabilities
              (cipher_capabilities (fscp (m_configuration s)));
            server_set_callbacks; server_open listen_endpoint]
        ++ ((λ n, logged LL_INFORMATION
                    [text "Configured not to accept requests from: ";
                     of_network n])
              <$> never_contact_list (fscp (m_configuration s)))
        ++ contact_all_started
           :: ((λ c, resolver_async_resolve c (handle_contact c))
                 <$> contact_list (fscp (m_configuration s))).
Proof.
  intros Hid. unfold open_server.
  unfold bind at 1, get at 1. rewrite Hid.
  unfold bind at 1, assertion at 1. cbn [bool_decide decide_rel].
  rewrite bool_decide_true by done.
  pose proof (foreach_log_run LL_INFORMATION
    (λ n, [text "Configured not to accept requests from: "; of_network n])
    (never_contact_list (fscp (m_configuration s)))) as Hlogs.
  pose proof async_contact_all_run as Hround.
  unfold returns_emitting in Hlogs, Hround.
  destruct (certificate_validation_method (security (m_configuration s)));
    cbv beta iota delta [bind get put emit ret assertion stop
                         update_contact_timer update_dynamic_contact_timer];
    rewrite Hlogs; cbv beta iota; rewrite Hround; cbv beta iota.
  all: eexists; split; [reflexivity|].
  all: cbn beta iota zeta delta
         [trace m_configuration m_logger m_server m_ca_store now
          m_contact_timer m_dynamic_contact_timer set_trace set_server
          set_ca_store set_contact_timer set_dynamic_contact_timer].
  all: split_and!; try reflexivity.
  all: by rewrite <- !(assoc_L (++)).
Qed.

(** X14: [open_server] needs the identity of the node: without one it
    stops on its first assertion.  With one it returns: the core holds a
    server, opened on the listen endpoint after its capabilities and its
    callbacks were set; one line is written for each banned network; the
    first contact round of the static loop is started at once, with one
    contact per configured contact, in order, while no round of the dynamic
    loop is; and each timer gets exactly one more wait, its deadline being
    left as it was. *)
Theorem open_server_starts_the_static_loop listen_endpoint s :
  (identity (security (m_configuration s)) = None →
   open_server listen_endpoint s = Failed assertion_failed)
  ∧ (is_Some (identity (security (m_configuration s))) →
     ∃ s',
       open_server listen_endpoint s = Ok (tt, s')
       ∧ m_server s' = true
       ∧ m_configuration s' = m_configuration s
       ∧ now s' = now s
       ∧ m_contact_timer s' = timer_async_wait (m_contact_timer s)
       ∧ m_dynamic_contact_timer s' =
           timer_async_wait (m_dynamic_contact_timer s)
       ∧ trace s' =
           trace s
           ++ [server_reset;
               server_set_cipher_capabilities
                 (cipher_capabilities (fscp (m_configuration s)));
               server_set_callbacks; server_open listen_endpoint]
           ++ ((λ n, logged LL_INFORMATION
                       [text "Configured not to accept requests from: ";
                        of_network n])
                 <$> never_contact_list (fscp (m_configuration s)))
           ++ contact_all_started
              :: ((λ c, resolver_async_resolve c (handle_contact c))
                    <$> contact_list (fscp (m_configuration s)))).
Proof.
  split.
  - intros Hnone. unfold open_server, bind at 1, get at 1. by rewrite Hnone.
  - intros [i Hid].
    destruct (open_server_run listen_endpoint s i Hid) as (s' & Hrun & Hs').
    exists s'. naive_solver.
Qed.

(** X15: the store of trusted certificates is built by [open_server] in
    default validation mode only: from an empty store, the certificate
    authorities are added in order, then the revocation lists in order,
    then the verification flags are set (the check of the leaf for
    [CRVM_LAST], that flag and the check of the whole chain for
    [CRVM_ALL], none for [CRVM_NONE]); every flag of [CRVM_LAST] is a flag
    of [CRVM_ALL].  In none mode the store is left as it was. *)
Theorem open_server_builds_the_store listen_endpoint s s' :
  open_server listen_endpoint s = Ok (tt, s') →
  m_ca_store s' =
    match certificate_validation_method (security (m_configuration s)) with
    | CVM_DEFAULT => built_store (security (m_configuration s))
    | CVM_NONE => m_ca_store s
    end
  ∧ Z.land (Z.lor X509_V_FLAG_CRL_CHECK X509_V_FLAG_CRL_CHECK_ALL)
        X509_V_FLAG_CRL_CHECK = X509_V_FLAG_CRL_CHECK.
Proof.
  intros Hopen. split; [|done].
  destruct (identity (security (m_configuration s))) as [i|] eqn:Hid.
  - destruct (open_server_run listen_endpoint s i Hid) as (s'' & Hrun & Hs').
    rewrite Hopen in Hrun. injection Hrun as <-. naive_solver.
  - unfold open_server, bind at 1, get at 1 in Hopen. by rewrite Hid in Hopen.
Qed.

Section opening_facts.

Variable listen_on : endpoint.
Variable server_enabled : bool.
Variable endpoint_resolve : endpoint → ep_type + error_code.

Lemma open_preamble_run listen_endpoint s :
  returns_emitting
    (bind (m_logger_log LL_INFORMATION
             [text "Core set to listen on: "; of_ep listen_endpoint])
          (λ _, if server_enabled
                then m_logger_log LL_INFORMATION [text "Server mode enabled."]
                else ret tt)) s tt
    (logged LL_INFORMATION
       [text "Core set to listen on: "; of_ep listen_endpoint]
     :: if server_enabled
        then [logged LL_INFORMATION [text "Server mode enabled."]] else []).
Proof.
  change (?e :: ?l) with ([e] ++ l). step_with returns_log.
  destruct server_enabled; [apply returns_log|apply returns_ret].
Qed.

(** X16: [open] resolves the endpoint to listen on before anything else:
    if the resolution fails its error is thrown, whether the node has an
    identity or not.  If it succeeds and the node has no identity, a
    runtime error is thrown.  In both cases only log lines have been
    written: no server is created, no contact is started and no timer is
    waited on.  If it succeeds and the node has an identity, [open] returns
    a core that holds a server, with both timers waiting. *)
Theorem open_needs_an_endpoint_and_an_identity s :
  match endpoint_resolve listen_on,
        identity (security (m_configuration s)) with
  | inr ec, _ =>
      open listen_on server_enabled endpoint_resolve s =
        thrown (system_error ec)
          (set_trace (trace s ++ [logged LL_DEBUG [text "Opening core..."]]) s)
  | inl listen_endpoint, None =>
      ∃ evs,
        open listen_on server_enabled endpoint_resolve s =
          thrown
            (runtime_error
               "No user certificate or private key set. Unable to continue.")
            (set_trace (trace s ++ evs) s)
        ∧ forallb is_logged evs = true
  | inl listen_endpoint, Some _ =>
      ∃ s',
        open listen_on server_enabled endpoint_resolve s = returned s'
        ∧ m_server s' = true
        ∧ timer_armed (m_contact_timer s') = true
        ∧ timer_armed (m_dynamic_contact_timer s') = true
        ∧ server_open listen_endpoint ∈ trace s'
  end.
Proof.
  assert (∀ k, after (m_logger_log LL_DEBUG [text "Opening core..."]) s k =
               k (set_trace
                    (trace s ++ [logged LL_DEBUG [text "Opening core..."]]) s))
    as Hfirst by done.
  unfold open. rewrite Hfirst.
  destruct (endpoint_resolve listen_on) as [listen_endpoint|ec]; [|done].
  pose proof (open_preamble_run listen_endpoint
                (set_trace
                   (trace s ++ [logged LL_DEBUG [text "Opening core..."]]) s))
    as Hpre.
  unfold returns_emitting in Hpre.
  destruct (identity (security (m_configuration s))) as [i|] eqn:Hid.
  - unfold after at 1. rewrite Hpre. tidy_core. rewrite Hid.
    destruct (open_server_run listen_endpoint
                (set_trace
                   ((trace s ++ [logged LL_DEBUG [text "Opening core..."]]) ++
                    logged LL_INFORMATION
                      [text "Core set to listen on: "; of_ep listen_endpoint]
                    :: (if server_enabled
                        then [logged LL_INFORMATION
                                [text "Server mode enabled."]]
                        else [])) s) i Hid)
      as (s' & Hrun & Hserver & _ & _ & _ & _ & Hc & Hd & Htrace).
    unfold after, bind at 1. rewrite Hrun.
    eexists. split; [reflexivity|].
    cbn beta iota zeta delta
      [trace m_server m_contact_timer m_dynamic_contact_timer set_trace].
    rewrite Hc, Hd, !timer_armed_async_wait, Htrace.
    split_and!; try done.
    rewrite !elem_of_app, !elem_of_cons. naive_solver.
  - unfold after at 1. rewrite Hpre. tidy_core. rewrite Hid.
    eexists. split.
    + rewrite <- (assoc_L (++)). reflexivity.
    + by destruct server_enabled.
Qed.

End opening_facts.

(** X17: on a core that holds no server (never opened), the operations
    that need the server stop the program instead of doing nothing: the
    introduction, the session request and the greeting on their assertion,
    the contact request to all, the dynamic contact round and the close on
    the null server they dereference (the close after it has cancelled the
    timers).  The contact of an endpoint, which starts with a resolution,
    and the static contact round do not need the server. *)
Theorem operations_need_the_server s target a handler hash_list :
  m_server s = false →
  async_introduce_to a s = Failed assertion_failed
  ∧ async_request_session a s = Failed assertion_failed
  ∧ do_contact a handler s = Failed assertion_failed
  ∧ async_send_contact_request_to_all hash_list s = Failed undefined_behaviour
  ∧ async_dynamic_contact_all s = Failed undefined_behaviour
  ∧ close_server s = Failed undefined_behaviour
  ∧ close s = Failed undefined_behaviour
  ∧ returns_emitting (async_contact target) s tt
      [resolver_async_resolve target (handle_contact target)]
  ∧ ∃ evs, returns_emitting async_contact_all s tt evs.
Proof.
  intros Hserver.
  unfold async_introduce_to, async_introduce_to_with, async_request_session,
    async_request_session_with, do_contact, async_dynamic_contact_all,
    async_send_contact_request_to_all, async_send_contact_request_to_all_with,
    close, close_server, m_server_call, update_contact_timer,
    update_dynamic_contact_timer, async_contact, async_contact_with.
  cbv beta iota delta [bind get put emit ret assertion stop m_logger_log].
  cbn beta iota zeta delta
    [trace m_server set_trace set_contact_timer set_dynamic_contact_timer].
  rewrite Hserver. split_and!; try done.
  eexists. apply async_contact_all_run.
Qed.

(** X18: on a core that holds a server, [close_server] returns: it
    cancels every pending wait of both timers, which keep their deadlines,
    and closes the server, which is the only event it emits; nothing else
    of the core changes.  The server is still held afterwards, so that a
    second close is carried out just the same. *)
Theorem close_server_cancels_and_closes s :
  m_server s = true →
  ∃ s',
    close_server s = Ok (tt, s')
    ∧ trace s' = trace s ++ [server_close]
    ∧ m_contact_timer s' = timer_cancel (m_contact_timer s)
    ∧ m_dynamic_contact_timer s' = timer_cancel (m_dynamic_contact_timer s)
    ∧ timer_armed (m_contact_timer s') = false
    ∧ timer_armed (m_dynamic_contact_timer s') = false
    ∧ m_server s' = true
    ∧ m_configuration s' = m_configuration s
    ∧ now s' = now s
    ∧ ∃ s'', close_server s' = Ok (tt, s'')
             ∧ trace s'' = trace s ++ [server_close; server_close].
Proof.
  intros Hserver.
  assert (∀ t, timer_armed (timer_cancel t) = false) as Hcancel.
  { intros [e l]. unfold timer_armed, timer_cancel. cbn [waits].
    induction l as [|[|ec] l IH]; cbn; done. }
  unfold close_server, m_server_call, update_contact_timer,
    update_dynamic_contact_timer.
  cbv beta iota delta [bind get put emit ret stop].
  cbn beta iota zeta delta
    [trace m_server m_configuration now m_contact_timer
     m_dynamic_contact_timer set_trace set_contact_timer
     set_dynamic_contact_timer].
  rewrite Hserver. eexists. split; [reflexivity|].
  cbn beta iota zeta delta
    [trace m_server m_configuration now m_contact_timer
     m_dynamic_contact_timer set_trace set_contact_timer
     set_dynamic_contact_timer].
  rewrite Hserver. split_and!; try done.
  eexists. split; [reflexivity|].
  cbn beta iota zeta delta
    [trace set_trace set_contact_timer set_dynamic_contact_timer].
  by rewrite <- (assoc_L (++)).
Qed.

(** ** More on the periodic loops *)

Lemma periodic_contact_effect ec s s' :
  do_handle_periodic_contact ec s = Ok (tt, s') →
  now s' = now s
  ∧ m_server s' = m_server s
  ∧ m_dynamic_contact_timer s' = m_dynamic_contact_timer s
  ∧ waits (m_contact_timer s') =
      if decide (ec ≠ operation_aborted)
      then (cancel_wait <$> waits (m_contact_timer s)) ++ [waiting]
      else waits (m_contact_timer s).
Proof.
  unfold do_handle_periodic_contact.
  destruct (decide (ec ≠ operation_aborted)).
  - unfold bind at 1. rewrite (async_contact_all_run s).
    by intros [= <-].
  - by intros [= <-].
Qed.

Lemma periodic_dynamic_contact_effect ec s s' :
  do_handle_periodic_dynamic_contact ec s = Ok (tt, s') →
  now s' = now s
  ∧ m_server s' = m_server s
  ∧ m_contact_timer s' = m_contact_timer s
  ∧ waits (m_dynamic_contact_timer s') =
      if decide (ec ≠ operation_aborted)
      then (cancel_wait <$> waits (m_dynamic_contact_timer s)) ++ [waiting]
      else waits (m_dynamic_contact_timer s).
Proof.
  unfold do_handle_periodic_dynamic_contact.
  destruct (decide (ec ≠ operation_aborted)).
  - destruct (m_server s) eqn:Hserver.
    + unfold bind at 1. rewrite (async_dynamic_contact_all_run s Hserver).
      by intros [= <-].
    + unfold async_dynamic_contact_all, async_send_contact_request_to_all,
        async_send_contact_request_to_all_with, m_server_call.
      cbv beta iota delta [bind get put emit ret stop].
      cbn beta iota zeta delta [m_server set_trace]. by rewrite Hserver.
  - by intros [= <-].
Qed.

(** X19: on an expiry that is not a cancellation, the static loop starts
    exactly one contact round: one contact for each configured contact, in
    the order of the configuration, each to be handled for that same
    contact; the dynamic loop, the server being there, sends exactly one
    contact request to all, carrying the hashes of the configured dynamic
    contacts in order (an empty list when there is none).  Without a server
    the dynamic loop stops the program. *)
Theorem expiry_starts_exactly_one_round s ec :
  ec ≠ operation_aborted →
  (∃ s', do_handle_periodic_contact ec s = Ok (tt, s')
         ∧ trace s' =
             trace s
             ++ contact_all_started
                :: ((λ c, resolver_async_resolve c (handle_contact c))
                      <$> contact_list (fscp (m_configuration s))))
  ∧ (m_server s = true →
     ∃ s', do_handle_periodic_dynamic_contact ec s = Ok (tt, s')
           ∧ trace s' =
               trace s
               ++ [dynamic_contact_all_started;
                   server_async_send_contact_request_to_all
                     (get_certificate_hash
                        <$> dynamic_contact_list (fscp (m_configuration s)))
                     handle_send_contact_request_to_all])
  ∧ (m_server s = false →
     do_handle_periodic_dynamic_contact ec s = Failed undefined_behaviour).
Proof.
  intros Hec. split_and!.
  - unfold do_handle_periodic_contact. rewrite decide_True by done.
    unfold bind at 1. rewrite (async_contact_all_run s).
    eexists. split; reflexivity.
  - intros Hserver.
    unfold do_handle_periodic_dynamic_contact. rewrite decide_True by done.
    unfold bind at 1. rewrite (async_dynamic_contact_all_run s Hserver).
    eexists. split; reflexivity.
  - intros Hserver.
    unfold do_handle_periodic_dynamic_contact. rewrite decide_True by done.
    unfold async_dynamic_contact_all, async_send_contact_request_to_all,
      async_send_contact_request_to_all_with, m_server_call.
    cbv beta iota delta [bind get put emit ret stop].
    cbn beta iota zeta delta [m_server set_trace]. by rewrite Hserver.
Qed.

Lemma timer_expire_length present t :
  length (waits (timer_expire present t)) = length (waits t).
Proof.
  unfold timer_expire. destruct (expires_at t <=? present); [|done].
  cbn [waits]. by rewrite length_fmap.
Qed.

Lemma single_wait_forgotten (l : list wait_state) i w :
  (length l ≤ 1)%nat → l !! i = Some w → delete i l = [].
Proof.
  destruct l as [|w' [|w'' l]]; cbn; [done| |lia].
  intros _. by destruct i.
Qed.

Lemma io_step_single e s s' :
  loops_single s → io_step e s = Ok (tt, s') → loops_single s'.
Proof.
  intros [Hc Hd]. unfold io_step, bind at 1, get at 1.
  destruct e as [d|[]|[] i].
  - by intros [= <-].
  - unfold update_contact_timer, bind, get, put. intros [= <-].
    split; [|done].
    cbn [m_contact_timer set_contact_timer]. by rewrite timer_expire_length.
  - unfold update_dynamic_contact_timer, bind, get, put. intros [= <-].
    split; [done|].
    cbn [m_dynamic_contact_timer set_dynamic_contact_timer].
    by rewrite timer_expire_length.
  - destruct (waits (m_contact_timer s) !! i) as [[|ec]|] eqn:Hi;
      [by intros [= <-]| |by intros [= <-]].
    unfold bind at 1, update_contact_timer, bind at 1, get, put.
    intros (_ & _ & Hdyn & Hwaits)%periodic_contact_effect.
    cbn [m_dynamic_contact_timer m_contact_timer set_contact_timer
         timer_forget_wait waits] in Hdyn, Hwaits.
    rewrite (single_wait_forgotten _ _ _ Hc Hi) in Hwaits.
    split; [|by rewrite Hdyn].
    rewrite Hwaits. case_decide; cbn; lia.
  - destruct (waits (m_dynamic_contact_timer s) !! i) as [[|ec]|] eqn:Hi;
      [by intros [= <-]| |by intros [= <-]].
    unfold bind at 1, update_dynamic_contact_timer, bind at 1, get, put.
    intros (_ & _ & Hcon & Hwaits)%periodic_dynamic_contact_effect.
    cbn [m_dynamic_contact_timer m_contact_timer
         set_dynamic_contact_timer timer_forget_wait waits]
      in Hcon, Hwaits.
    rewrite (single_wait_forgotten _ _ _ Hd Hi) in Hwaits.
    split; [by rewrite Hcon|].
    rewrite Hwaits. case_decide; cbn; lia.
Qed.

(** X20: a loop never has two waits outstanding.  If each timer has at
    most one wait whose handler has not run, this is still so after
    whatever the io_service does that does not stop the program: time
    passing, expiries being noticed, handlers being run with the outcome of
    their wait, in any order and number. *)
Theorem loops_never_wait_twice events : ∀ s s',
  loops_single s → io_run events s = Ok (tt, s') → loops_single s'.
Proof.
  unfold io_run.
  induction events as [|e events IH]; intros s s' Hs.
  - by intros [= <-].
  - cbn [foreach]. unfold bind at 1.
    destruct (io_step e s) as [[[] s1]|] eqn:Hstep; [|done].
    intros Hrun.
    pose proof (io_step_single e s s1 Hs Hstep) as Hs1.
    by apply (IH s1 s' Hs1).
Qed.

End core_facts.

(** C1 as stated fails on the empty key set: no call of [gather] is due, and
    the handler, which only [gather] invokes, is never invoked. *)
Lemma gather_empty_key_set_never_fires :
  covers_once (∅ : gset nat) ([] : list (nat * nat))
  ∧ gather_all ([] : list (nat * nat)) (make ∅) = Ok (make ∅)
  ∧ m_handler (make (∅ : gset nat) : results_gatherer nat nat) = []
  ∧ ¬ fires_once_at_the_end (∅ : gset nat) ([] : list (nat * nat)).
Proof.
  split_and!; [split; [constructor|done]|done|done|].
  intros [(g & Hrun & Hh & _) _]. cbn in Hrun. injection Hrun as <-.
  discriminate Hh.
Qed.

(** Three peers report, in any order: the handler fires once, at the end. *)
Lemma gather_fires_once_witness :
  fires_once_at_the_end ({[ 1%nat; 2%nat; 3%nat ]} : gset nat)
    [(2%nat, 0%nat); (3%nat, 5%nat); (1%nat, 0%nat)].
Proof.
  apply gather_fires_once_when_all_reported.
  - set_solver.
  - split.
    + cbn. repeat constructor; set_solver.
    + cbn. set_solver.
Defined.

(** Key 2 reports a second time. *)
Lemma gather_unexpected_key_witness :
  ∃ g : results_gatherer nat nat,
    gather_all [(2%nat, 0%nat)] (make {[ 1%nat; 2%nat ]}) = Ok g
    ∧ gather 2%nat 7%nat g = Failed assertion_failed.
Proof.
  eexists. split; [reflexivity|].
  apply gather_unexpected_key_aborts. cbn. set_solver.
Defined.

(** ** The facts at work, in the example world *)

Section examples.

#[local] Existing Instance example_collaborators.

(** 198.51.100.9 is banned in [example_core]: its hello is rejected though
    the transport suggests to accept it, and a contact announcing it is not
    followed. *)
Lemma banned_address_witness :
  (∃ evs, returns_emitting (do_handle_hello_received peer_198_51_100_9 true)
            example_core false evs
          ∧ forallb is_logged evs = true
          ∧ existsb is_introduction evs = false)
  ∧ (∃ evs, returns_emitting
              (do_handle_contact_received peer_203_0_113_5 7%nat
                 peer_198_51_100_9)
              example_core tt evs
            ∧ forallb is_logged evs = true
            ∧ existsb is_contact evs = false).
Proof.
  destruct (banned_address_rejected_and_never_contacted
              example_core host_198_51_100_9) as [Hhello Hcontact].
  - reflexivity.
  - split.
    + apply Hhello. reflexivity.
    + apply Hcontact. reflexivity.
Defined.

(** 203.0.113.5 presents the two certificates the store trusts. *)
Lemma presentation_witness :
  ∃ evs,
    let both_valid :=
      certificate_verdict example_core 10%nat
      && certificate_verdict example_core 11%nat in
    let accepted :=
      negb (banned example_core (address peer_203_0_113_5)) && both_valid in
    returns_emitting
      (do_handle_presentation_received peer_203_0_113_5 10%nat 11%nat true)
      example_core accepted evs
    ∧ List.filter is_session_request evs =
        if accepted
        then [server_async_request_session peer_203_0_113_5
                (handle_request_session peer_203_0_113_5)]
        else [].
Proof.
  apply presentation_accepted_iff_both_certificates_valid. reflexivity.
Defined.

(** A certificate the store does not know: the validator of the example
    configuration, which accepts everything, is not asked. *)
Lemma failed_chain_verification_witness :
  ∃ evs, returns_emitting (certificate_is_valid 99%nat) example_core false evs
         ∧ existsb is_validation_callback evs = false.
Proof.
  apply failed_chain_verification_skips_external_validator; reflexivity.
Defined.

(** C9 as stated fails: contact requests being enabled, a request whose
    sender and answer are both banned addresses is accepted. *)
Lemma contact_request_from_banned_sender_accepted :
  banned example_core (address peer_198_51_100_9) = true
  ∧ returns_emitting
      (do_handle_contact_request_received peer_198_51_100_9 7%nat 7%nat
         peer_198_51_100_9)
      example_core true
      [logged LL_INFORMATION
         [text "Received contact request from "; of_ep peer_198_51_100_9;
          text " for "; of_subject 7%nat; text " ("; of_hash 7%nat;
          text "). Host is at: "; of_ep peer_198_51_100_9]].
Proof. split; reflexivity. Qed.

(** The static loop rearms 30 s after the time its handler runs. *)
Lemma periodic_contact_witness :
  ∃ s', do_handle_periodic_contact ec_success example_core = Ok (tt, s')
        ∧ expires_at (m_contact_timer s') = now example_core + seconds 30
        ∧ timer_armed (m_contact_timer s') = true
        ∧ (rearmed_from_previous_expiry CONTACT_PERIOD
             (m_contact_timer example_core) (m_contact_timer s')
           ↔ now example_core = expires_at (m_contact_timer example_core)).
Proof.
  apply (periodic_contact_rearms_from_present_time example_core ec_success).
  discriminate.
Defined.

(** C6 as stated fails: the first expiry of the static loop is due at 30 s;
    handled at 31 s, the next deadline is 61 s, not 30 s + 30 s. *)
Lemma late_expiry_rearms_from_present_time :
  io_run late_expiry example_core = Ok (tt, example_core_after_late_expiry)
  ∧ expires_at (m_contact_timer example_core) = seconds 30
  ∧ expires_at (m_contact_timer example_core_after_late_expiry) = seconds 61
  ∧ ¬ rearmed_from_previous_expiry CONTACT_PERIOD
        (m_contact_timer example_core)
        (m_contact_timer example_core_after_late_expiry).
Proof.
  split_and!; [reflexivity..|]. unfold rearmed_from_previous_expiry.
  vm_compute. discriminate.
Qed.

(** After the close of the example core, nothing comes from the loops. *)
Lemma cancelled_loops_witness :
  ∃ s2, io_run after_close example_closed_core = Ok (tt, s2)
        ∧ trace s2 = trace example_closed_core
        ∧ existsb is_contact_round
            (drop (length (trace example_core)) (trace s2)) = false
        ∧ timer_armed (m_contact_timer s2) = false
        ∧ timer_armed (m_dynamic_contact_timer s2) = false.
Proof.
  apply (proj2 cancelled_loops_never_contact_again example_core);
    [reflexivity|reflexivity|left; reflexivity].
Defined.

(** The first expiry of the static loop is noticed at 30 s, and the core
    is closed before the handler runs: the handler, run after the close,
    starts a contact round and rearms the timer for 60 s. *)
Lemma completed_wait_witness :
  ∃ s1 s2 evs,
    close example_core_at_expiry = Ok (tt, s1)
    ∧ waits (loop_timer contact_timer s1) !! 0%nat
        = Some (completed ec_success)
    ∧ io_step (wait_handler_runs contact_timer 0) s1 = Ok (tt, s2)
    ∧ trace s2 = trace s1 ++ round_started contact_timer :: evs
    ∧ timer_armed (loop_timer contact_timer s2) = true
    ∧ expires_at (loop_timer contact_timer s2)
        = now example_core_at_expiry + loop_period contact_timer.
Proof.
  apply (close_does_not_stop_a_completed_wait example_core_at_expiry
           contact_timer 0%nat ec_success);
    [reflexivity|reflexivity|discriminate].
Defined.

(** The same run, step by step: when the expiry has been noticed before
    the close, the wait has completed without error and [cancel()] leaves it
    so; its handler, run after the close, starts a contact round and rearms
    the timer. *)
Example completed_wait_survives_close :
  ∃ s1 s2,
    io_run [clock_advances (seconds 30); timer_expires contact_timer]
      example_core = Ok (tt, s1)
    ∧ timer_cancellable (m_contact_timer s1) = false
    ∧ (bind close_server (λ _, io_run [wait_handler_runs contact_timer 0])) s1
        = Ok (tt, s2)
    ∧ existsb is_contact_round (drop (length (trace s1)) (trace s2)) = true
    ∧ timer_armed (m_contact_timer s2) = true.
Proof.
  eexists. eexists. split_and!.
  - vm_compute. reflexivity.
  - reflexivity.
  - vm_compute. reflexivity.
  - reflexivity.
  - reflexivity.
Qed.

(** The model at work on the scenarios of the specification. *)

(** A hello from a host that is not banned, which the transport suggests to
    accept: accepted, and an introduction is sent back. *)
Example hello_from_unbanned_host :
  match do_handle_hello_received peer_203_0_113_5 true example_core with
  | Ok (accepted, s') =>
      accepted = true
      ∧ drop (length (trace example_core)) (trace s') =
          [logged LL_DEBUG
             [text "Received HELLO_REQUEST from "; of_ep peer_203_0_113_5;
              text "."];
           server_async_introduce_to peer_203_0_113_5
             (handle_introduce_to peer_203_0_113_5)]
  | Failed _ => False
  end.
Proof. vm_compute. by split. Qed.

(** A presentation with a cipherment certificate the store does not know
    is rejected, and no session is requested. *)
Example presentation_with_unknown_certificate :
  match do_handle_presentation_received peer_203_0_113_5 10%nat 99%nat true
          example_core with
  | Ok (accepted, s') =>
      accepted = false
      ∧ existsb is_session_request
          (drop (length (trace example_core)) (trace s')) = false
  | Failed _ => False
  end.
Proof. vm_compute. by split. Qed.

(** A presentation with two trusted certificates is accepted, and a session
    is requested from the sender. *)
Example presentation_with_trusted_certificates :
  match do_handle_presentation_received peer_203_0_113_5 10%nat 11%nat true
          example_core with
  | Ok (accepted, s') =>
      accepted = true
      ∧ List.filter is_session_request
          (drop (length (trace example_core)) (trace s')) =
          [server_async_request_session peer_203_0_113_5
             (handle_request_session peer_203_0_113_5)]
  | Failed _ => False
  end.
Proof. vm_compute. by split. Qed.

(** The first session established with a peer, then lost: log lines only. *)
Example session_established_then_lost :
  match bind (do_handle_session_established peer_203_0_113_5 true 0%nat 0%nat)
          (λ _, do_handle_session_lost peer_203_0_113_5) example_core with
  | Ok (_, s') =>
      forallb is_logged (drop (length (trace example_core)) (trace s')) = true
      ∧ length (drop (length (trace example_core)) (trace s')) = 4%nat
  | Failed _ => False
  end.
Proof. vm_compute. by split. Qed.

(** The resolution of node-a.example succeeds with 203.0.113.5:12000: the
    handler greets nobody and introduces the core to 0.0.0.0:0. *)
Example resolution_success_is_handled_as_a_failure :
  match async_contact_resolved
          (handle_contact (hostname_endpoint "node-a.example" "12000"))
          ec_success [peer_203_0_113_5] example_core with
  | Ok (_, s') =>
      existsb (λ e, match e with server_async_greet _ _ => true | _ => false end)
        (drop (length (trace example_core)) (trace s')) = false
      ∧ existsb is_introduction
          (drop (length (trace example_core)) (trace s')) = true
  | Failed _ => False
  end.
Proof. vm_compute. by split. Qed.

End examples.

(** ** The further facts at work *)

Section more_examples.

#[local] Existing Instance example_collaborators.

(** Two of three peers have reported: the third is pending and the handler
    has not been invoked. *)
Lemma gather_run_witness :
  ∃ g : results_gatherer nat nat,
    gather_all [(2%nat, 0%nat); (3%nat, 5%nat)]
      (make {[ 1%nat; 2%nat; 3%nat ]}) = Ok g
    ∧ m_keys g =
        ({[ 1%nat; 2%nat; 3%nat ]} : gset nat)
          ∖ list_to_set [(2%nat, 0%nat); (3%nat, 5%nat)].*1
    ∧ m_handler g =
        if decide ([(2%nat, 0%nat); (3%nat, 5%nat)] ≠ [] ∧ m_keys g = ∅)
        then [m_results g] else [].
Proof.
  eexists. split; [reflexivity|].
  match goal with
  | |- m_keys ?g = _ ∧ _ =>
      destruct (gather_run_is_sound ({[ 1%nat; 2%nat; 3%nat ]} : gset nat)
                  [(2%nat, 0%nat); (3%nat, 5%nat)] g)
        as (_ & _ & Hkeys & _ & _ & Hhandler); [reflexivity|]
  end.
  split; assumption.
Defined.

Lemma gather_order_witness :
  ∃ g : results_gatherer nat nat,
    gather_all [(2%nat, 0%nat); (1%nat, 5%nat)] (make {[ 1%nat; 2%nat ]})
      = Ok g
    ∧ gather_all [(1%nat, 5%nat); (2%nat, 0%nat)] (make {[ 1%nat; 2%nat ]})
        = Ok g.
Proof.
  apply gather_order_is_irrelevant.
  - split.
    + cbn. repeat constructor; set_solver.
    + cbn. set_solver.
  - apply perm_swap.
Defined.

(** A hello from 203.0.113.5, which is not banned. *)
Lemma hello_verdict_witness :
  ∃ evs,
    returns_emitting (do_handle_hello_received peer_203_0_113_5 true)
      example_core true evs
    ∧ List.filter is_outbound evs =
        [server_async_introduce_to peer_203_0_113_5
           (handle_introduce_to peer_203_0_113_5)].
Proof.
  apply (hello_verdict_follows_transport_default example_core
           peer_203_0_113_5 true); reflexivity.
Defined.

(** A contact announcing 203.0.113.5:12000. *)
Lemma contact_received_witness :
  ∃ evs,
    returns_emitting
      (do_handle_contact_received peer_198_51_100_9 7%nat peer_203_0_113_5)
      example_core tt evs
    ∧ List.filter is_outbound evs =
        (if accept_contacts (fscp (m_configuration example_core))
         then [resolver_async_resolve (to_endpoint peer_203_0_113_5)
                 (handle_contact (to_endpoint peer_203_0_113_5))]
         else [])
    ∧ (accept_contacts (fscp (m_configuration example_core)) = false →
       evs = []).
Proof.
  apply (contact_received_contacts_announced_endpoint example_core).
  reflexivity.
Defined.

(** A greeting that timed out. *)
Lemma greeting_outcome_witness :
  ∃ line evs,
    returns_emitting
      (do_handle_contact (hostname_endpoint "node-a.example" "12000")
         peer_203_0_113_5 hello_request_timed_out (seconds 3))
      example_core tt (logged LL_DEBUG line :: evs)
    ∧ evs = if is_error hello_request_timed_out then []
            else [server_async_introduce_to peer_203_0_113_5
                    (handle_introduce_to peer_203_0_113_5)].
Proof.
  apply (greeting_outcome_is_introduced_or_logged example_core).
  reflexivity.
Defined.

(** A session request from a banned address is answered as the transport
    suggests. *)
Lemma every_callback_witness :
  ∃ verdict evs,
    returns_emitting
      (invoke (λ _ : cipher_algorithm_type, "aes256-gcm")
         (session_request_message_received peer_198_51_100_9
            [1%nat; 2%nat] true))
      example_core verdict evs
    ∧ (length (List.filter is_outbound evs) ≤ 1)%nat
    ∧ (may_initiate
         (session_request_message_received peer_198_51_100_9
            [1%nat; 2%nat] true) = false →
       forallb is_logged evs = true).
Proof.
  apply (every_callback_returns (λ _ : cipher_algorithm_type, "aes256-gcm") example_core).
  reflexivity.
Defined.

(** None mode, no validator: any certificate is accepted, silently. *)
Lemma validation_without_validator_witness :
  ∃ evs,
    returns_emitting (certificate_is_valid 99%nat) example_open_core
      (chain_allows example_open_core 99%nat) evs
    ∧ forallb is_logged evs = true
    ∧ (certificate_validation_method
         (security (m_configuration example_open_core)) = CVM_NONE →
       chain_allows example_open_core 99%nat = true ∧ evs = []).
Proof.
  apply (validation_without_external_validator example_open_core).
  reflexivity.
Defined.

(** Certificate 10 is accepted by the example core: it verifies against
    the store and the validator accepts it. *)
Lemma accepted_certificate_witness :
  chain_allows example_core 10%nat = true
  ∧ external_verdict example_core 10%nat = true.
Proof.
  destruct (certificate_is_valid_run example_core 10%nat) as (evs & Hrun & _).
  apply (accepted_certificates_passed_every_check example_core _ evs).
  exact Hrun.
Defined.

(** The example configuration has an identity: the server opens. *)
Lemma open_server_witness :
  ∃ s',
    open_server {| address := address_v4 0; port := 12000 |}
      example_unopened_core = Ok (tt, s')
    ∧ m_server s' = true
    ∧ m_configuration s' = m_configuration example_unopened_core
    ∧ now s' = now example_unopened_core
    ∧ m_contact_timer s' =
        timer_async_wait (m_contact_timer example_unopened_core)
    ∧ m_dynamic_contact_timer s' =
        timer_async_wait (m_dynamic_contact_timer example_unopened_core)
    ∧ trace s' =
        trace example_unopened_core
        ++ [server_reset;
            server_set_cipher_capabilities
              (cipher_capabilities
                 (fscp (m_configuration example_unopened_core)));
            server_set_callbacks;
            server_open {| address := address_v4 0; port := 12000 |}]
        ++ ((λ n, logged LL_INFORMATION
                    [text "Configured not to accept requests from: ";
                     of_network n])
              <$> never_contact_list
                    (fscp (m_configuration example_unopened_core)))
        ++ contact_all_started
           :: ((λ c, resolver_async_resolve c (handle_contact c))
                 <$> contact_list
                       (fscp (m_configuration example_unopened_core))).
Proof.
  apply (proj2 (open_server_starts_the_static_loop
                  {| address := address_v4 0; port := 12000 |}
                  example_unopened_core)).
  by eexists.
Defined.

(** The store of the example core: the two authorities, leaf check. *)
Lemma open_server_store_witness :
  m_ca_store example_core =
    match certificate_validation_method
            (security (m_configuration example_unopened_core)) with
    | CVM_DEFAULT => built_store (security (m_configuration example_unopened_core))
    | CVM_NONE => m_ca_store example_unopened_core
    end
  ∧ Z.land (Z.lor X509_V_FLAG_CRL_CHECK X509_V_FLAG_CRL_CHECK_ALL)
        X509_V_FLAG_CRL_CHECK = X509_V_FLAG_CRL_CHECK.
Proof.
  apply (open_server_builds_the_store
           {| address := address_v4 0; port := 12000 |}
           example_unopened_core example_core).
  vm_compute. reflexivity.
Defined.

(** A core never opened. *)
Lemma operations_need_the_server_witness :
  async_introduce_to peer_203_0_113_5 example_unopened_core
    = Failed assertion_failed
  ∧ async_request_session peer_203_0_113_5 example_unopened_core
      = Failed assertion_failed
  ∧ do_contact peer_203_0_113_5
      (handle_contact (to_endpoint peer_203_0_113_5)) example_unopened_core
      = Failed assertion_failed
  ∧ async_send_contact_request_to_all [7%nat] example_unopened_core
      = Failed undefined_behaviour
  ∧ async_dynamic_contact_all example_unopened_core
      = Failed undefined_behaviour
  ∧ close_server example_unopened_core = Failed undefined_behaviour
  ∧ close example_unopened_core = Failed undefined_behaviour
  ∧ returns_emitting (async_contact (to_endpoint peer_203_0_113_5))
      example_unopened_core tt
      [resolver_async_resolve (to_endpoint peer_203_0_113_5)
         (handle_contact (to_endpoint peer_203_0_113_5))]
  ∧ ∃ evs, returns_emitting async_contact_all example_unopened_core tt evs.
Proof.
  apply (operations_need_the_server example_unopened_core). reflexivity.
Defined.

(** The example core closes, twice. *)
Lemma close_server_witness :
  ∃ s',
    close_server example_core = Ok (tt, s')
    ∧ trace s' = trace example_core ++ [server_close]
    ∧ m_contact_timer s' = timer_cancel (m_contact_timer example_core)
    ∧ m_dynamic_contact_timer s' =
        timer_cancel (m_dynamic_contact_timer example_core)
    ∧ timer_armed (m_contact_timer s') = false
    ∧ timer_armed (m_dynamic_contact_timer s') = false
    ∧ m_server s' = true
    ∧ m_configuration s' = m_configuration example_core
    ∧ now s' = now example_core
    ∧ ∃ s'', close_server s' = Ok (tt, s'')
             ∧ trace s'' = trace example_core ++ [server_close; server_close].
Proof.
  apply (close_server_cancels_and_closes example_core). reflexivity.
Defined.

(** A normal expiry on the example core. *)
Lemma expiry_round_witness :
  ∃ s', do_handle_periodic_contact ec_success example_core = Ok (tt, s')
        ∧ trace s' =
            trace example_core
            ++ contact_all_started
               :: ((λ c, resolver_async_resolve c (handle_contact c))
                     <$> contact_list (fscp (m_configuration example_core))).
Proof.
  apply (expiry_starts_exactly_one_round example_core ec_success).
  discriminate.
Defined.

(** The example core, whose first expiry is handled late, still has one
    wait per loop. *)
Lemma loops_never_wait_twice_witness :
  loops_single example_core_after_late_expiry.
Proof.
  apply (loops_never_wait_twice late_expiry example_core).
  - split; cbn; lia.
  - reflexivity.
Defined.

End more_examples.
